(** * The playground interpreter (src/playground/interpreter.js)

    A shallow embedding of the line-oriented interpreter: the scope chain
    (class Environment), the session object (class Runtime), the expression
    evaluator (evalExpression) and the block interpreter (interpretBlock),
    followed by the properties established about them.

    Conventions of the embedding.
    - A JavaScript string is a [string] whose characters are the code units
      below 256; the character classes of the regular expressions (\s, \w,
      \d and the dot) are written out for that range.
    - A Number is an integer [Z] of magnitude at most 2^53, where double
      arithmetic with + - * is exact; anything else is outside the model.
    - Environment objects are mutable and shared through their parent
      pointers, so they live in a heap (a list indexed by address).
    - A plain object used as a table ([this.vars], [runtime.functions]) is a
      [gmap] of its own properties; the [in] operator and property reads
      also see what every object inherits from Object.prototype.
    - interpretBlock may loop for ever (while); the model takes fuel. *)

From Stdlib Require Import ZArith Ascii String DecimalString DecimalPos Lia.
From stdpp Require Import base option list strings gmap.

(** ** Characters and strings *)

Module Chars.
Local Open Scope nat_scope.

Definition code (c : ascii) : nat := nat_of_ascii c.

(** \s, which is also what String.prototype.trim removes: TAB, LF, VT, FF,
    CR, SPACE and NBSP (the only members below 256). *)
Definition isSpace (c : ascii) : bool :=
  let n := code c in
  ((9 <=? n) && (n <=? 13)) || (n =? 32) || (n =? 160).

(** \d *)
Definition isDigit (c : ascii) : bool :=
  let n := code c in (48 <=? n) && (n <=? 57).

(** [a-zA-Z] *)
Definition isAlpha (c : ascii) : bool :=
  let n := code c in
  ((65 <=? n) && (n <=? 90)) || ((97 <=? n) && (n <=? 122)).

(** [a-zA-Z_], the first character of a match of varIndexRegex *)
Definition isIdentStart (c : ascii) : bool :=
  isAlpha c || (code c =? 95).

(** \w *)
Definition isWord (c : ascii) : bool :=
  isAlpha c || isDigit c || (code c =? 95).

(** the dot of a regular expression matches everything but LF and CR *)
Definition isLineTerminator (c : ascii) : bool :=
  (code c =? 10) || (code c =? 13).

Definition isDot (c : ascii) : bool := negb (isLineTerminator c).

Definition isQuote (c : ascii) : bool :=
  (code c =? 34) || (code c =? 39).

End Chars.

Local Open Scope string_scope.

Module Str.
Import Chars.

Fixpoint all (p : ascii -> bool) (s : string) : bool :=
  match s with
  | EmptyString => true
  | String c s' => p c && all p s'
  end.

(** the longest prefix of characters satisfying [p], and the rest *)
Fixpoint span (p : ascii -> bool) (s : string) : string * string :=
  match s with
  | EmptyString => (EmptyString, EmptyString)
  | String c s' =>
      if p c then let (a, b) := span p s' in (String c a, b)
      else (EmptyString, s)
  end.

Definition isEmpty (s : string) : bool :=
  match s with EmptyString => true | _ => false end.

Fixpoint drop (n : nat) (s : string) : string :=
  match n, s with
  | S n', String _ s' => drop n' s'
  | _, _ => s
  end.

Fixpoint stripPrefix (p s : string) : option string :=
  match p, s with
  | EmptyString, _ => Some s
  | String a p', String b s' =>
      if Ascii.eqb a b then stripPrefix p' s' else None
  | String _ _, EmptyString => None
  end.

(** s.startsWith(p) *)
Definition startsWith (p s : string) : bool :=
  match stripPrefix p s with Some _ => true | None => false end.

(** [stripSuffix p s = Some b] when [s = b ++ p] *)
Fixpoint stripSuffix (p s : string) : option string :=
  if String.eqb s p then Some EmptyString
  else match s with
       | EmptyString => None
       | String c s' =>
           match stripSuffix p s' with
           | Some b => Some (String c b)
           | None => None
           end
       end.

Definition trimStart (s : string) : string := snd (span isSpace s).

Fixpoint trimEnd (s : string) : string :=
  match s with
  | EmptyString => EmptyString
  | String c s' =>
      let t := trimEnd s' in
      if isEmpty t && isSpace c then EmptyString else String c t
  end.

(** s.trim() *)
Definition trim (s : string) : string := trimEnd (trimStart s).

(** s.slice(1, -1) *)
Fixpoint dropLast (s : string) : string :=
  match s with
  | EmptyString => EmptyString
  | String c EmptyString => EmptyString
  | String c s' => String c (dropLast s')
  end.

Definition slice1 (s : string) : string :=
  match s with
  | EmptyString => EmptyString
  | String _ s' => dropLast s'
  end.

Fixpoint lastChar (s : string) : option ascii :=
  match s with
  | EmptyString => None
  | String c EmptyString => Some c
  | String _ s' => lastChar s'
  end.

(** s.split(sep) for a one-character separator: never an empty list *)
Fixpoint split (sep : ascii) (s : string) : list string :=
  match s with
  | EmptyString => [EmptyString]
  | String c s' =>
      if Ascii.eqb c sep then EmptyString :: split sep s'
      else match split sep s' with
           | h :: t => String c h :: t
           | [] => [String c EmptyString]
           end
  end.

(** the characters of a string as one-character strings ([...s]) *)
Fixpoint chars (s : string) : list string :=
  match s with
  | EmptyString => []
  | String c s' => String c EmptyString :: chars s'
  end.

(** the value of a run of decimal digits *)
Definition digitVal (c : ascii) : Z := Z.of_nat (code c - 48)%nat.

Fixpoint parseDigitsFrom (acc : Z) (s : string) : Z :=
  match s with
  | EmptyString => acc
  | String c s' => parseDigitsFrom (10 * acc + digitVal c)%Z s'
  end.

Definition parseDigits (s : string) : Z := parseDigitsFrom 0%Z s.

(** String(n) for an integer n *)
Definition ofZ (n : Z) : string := NilZero.string_of_int (Z.to_int n).

End Str.

(** ** The regular expressions of the statement dispatcher

    A pattern is written in continuation style, one combinator per piece of
    the regular expression, so that each matcher below reads like the
    pattern in the source.  [many] is a greedy quantifier over a character
    class: it takes the longest run first and gives characters back one at a
    time when the rest of the pattern fails, as the host's backtracking
    matcher does.  All patterns of the dispatcher are anchored at both ends. *)

Module Re.
Import Chars Str.

Section Combinators.
Context {A : Type}.

(** a literal piece of the pattern *)
Definition lit (p : string) (k : string -> option A) (s : string) : option A :=
  match stripPrefix p s with
  | Some r => k r
  | None => None
  end.

(** one character of a class *)
Definition one (p : ascii -> bool) (k : string -> option A) (s : string)
  : option A :=
  match s with
  | String c r => if p c then k r else None
  | EmptyString => None
  end.

(** the end of the input: [$] *)
Definition eos (a : A) (s : string) : option A :=
  if isEmpty s then Some a else None.

(** [min] or more characters of the class [p], greedy; the continuation
    receives the characters taken and what follows them *)
Fixpoint many (p : ascii -> bool) (min : nat)
  (k : string -> string -> option A) (s : string) : option A :=
  let stop := if (min =? 0)%nat then k EmptyString s else None in
  match s with
  | String c r =>
      if p c then
        match many p (pred min) (fun m => k (String c m)) r with
        | Some a => Some a
        | None => stop
        end
      else stop
  | EmptyString => stop
  end.

End Combinators.

Definition notRParen (c : ascii) : bool := negb (Ascii.eqb c ")").

(** /^let\s+(\w+)\s*=\s*(.+)$/ and /^set\s+(\w+)\s*=\s*(.+)$/ *)
Definition declMatch (keyword line : string) : option (string * string) :=
  lit keyword
    (many isSpace 1 (fun _ =>
     many isWord 1 (fun varName =>
     many isSpace 0 (fun _ =>
     lit "="
    (many isSpace 0 (fun _ =>
     many isDot 1 (fun expr =>
     eos (varName, expr)))))))) line.

Definition letMatch : string -> option (string * string) := declMatch "let".
Definition setMatch : string -> option (string * string) := declMatch "set".

(** /^(\w+)\s*=\s*(.+)$/ *)
Definition assignMatch (line : string) : option (string * string) :=
  many isWord 1 (fun varName =>
  many isSpace 0 (fun _ =>
  lit "="
 (many isSpace 0 (fun _ =>
  many isDot 1 (fun expr =>
  eos (varName, expr)))))) line.

(** /^say\s+(.+)$/ and /^return\s+(.+)$/ *)
Definition wordArgMatch (keyword line : string) : option string :=
  lit keyword
    (many isSpace 1 (fun _ =>
     many isDot 1 (fun arg =>
     eos arg))) line.

Definition sayMatch : string -> option string := wordArgMatch "say".
Definition returnMatch : string -> option string := wordArgMatch "return".

(** the test of say's argument: a quote of either kind, a greedy run of
    dots, a quote of either kind, the end *)
Definition quotedLiteral (arg : string) : bool :=
  match one isQuote (many isDot 0 (fun _ => one isQuote (eos tt))) arg with
  | Some _ => true
  | None => false
  end.

(** /^if\s+(.+):$/ and /^while\s+(.+):$/ *)
Definition headerMatch (keyword line : string) : option string :=
  lit keyword
    (many isSpace 1 (fun _ =>
     many isDot 1 (fun condExpr =>
     lit ":" (eos condExpr)))) line.

Definition ifMatch : string -> option string := headerMatch "if".
Definition whileMatch : string -> option string := headerMatch "while".

(** /^else:$/ *)
Definition elseMatch (line : string) : option unit :=
  lit "else:" (eos tt) line.

(** /^repeat\s+(\d+):$/ *)
Definition repeatMatch (line : string) : option string :=
  lit "repeat"
    (many isSpace 1 (fun _ =>
     many isDigit 1 (fun count =>
     lit ":" (eos count)))) line.

(** the function header: "function", \s+, a captured \w+, \s*, an opening
    parenthesis, a captured run of characters other than the closing
    parenthesis, then the closing parenthesis, a colon and the end *)
Definition funcMatch (line : string) : option (string * string) :=
  lit "function"
    (many isSpace 1 (fun _ =>
     many isWord 1 (fun funcName =>
     many isSpace 0 (fun _ =>
     lit "("
    (many notRParen 0 (fun paramsStr =>
     lit "):" (eos (funcName, paramsStr)))))))) line.

(** the call statement: a captured \w+, an opening parenthesis, a captured
    greedy run of dots, a closing parenthesis and the end *)
Definition callMatch (line : string) : option (string * string) :=
  many isWord 1 (fun funcName =>
  lit "("
 (many isDot 0 (fun argsStr =>
  lit ")" (eos (funcName, argsStr))))) line.

(** One match of varIndexRegex at the start of [s]: a letter or underscore,
    \w star, then any number of groups made of a bracketed \d+.  The result
    is the name, the indices and what follows.  Nothing follows the pattern,
    so every quantifier keeps its longest run. *)
Definition indexGroup (s : string) : option (string * string) :=
  lit "[" (many isDigit 1 (fun d => lit "]" (fun r => Some (d, r)))) s.

Fixpoint indexGroups (fuel : nat) (s : string) : list string * string :=
  match fuel with
  | 0 => ([], s)
  | S fuel' =>
      match indexGroup s with
      | Some (d, r) => let (ds, r') := indexGroups fuel' r in (d :: ds, r')
      | None => ([], s)
      end
  end.

Definition varIndexMatch (s : string) : option (string * list string * string) :=
  one isIdentStart (fun _ =>
    let (name, r) := span isWord s in
    let (indices, r') := indexGroups (String.length r) r in
    Some (name, indices, r')) s.

End Re.

(** ** Statement forms, in the dispatcher's order of priority *)

Inductive statement : Type :=
| SSkip                                        (* blank line or comment *)
| SLet (varName expr : string)
| SSet (varName expr : string)
| SAssign (varName expr : string)
| SSay (arg : string)
| SIf (condExpr : string)
| SElse
| SRepeat (count : string)
| SWhile (condExpr : string)
| SFunction (funcName paramsStr : string)
| SReturn (expr : string)
| SCall (funcName argsStr : string)
| SUnknown.

(** The chain of [line.match(...)] tests of interpretBlock on a trimmed
    line; every handler ends its iteration, so the first match decides. *)
Definition classify (line : string) : statement :=
  if Str.isEmpty line || Str.startsWith "#" line then SSkip else
  match Re.letMatch line with Some (n, e) => SLet n e | None =>
  match Re.setMatch line with Some (n, e) => SSet n e | None =>
  match Re.assignMatch line with Some (n, e) => SAssign n e | None =>
  match Re.sayMatch line with Some a => SSay a | None =>
  match Re.ifMatch line with Some c => SIf c | None =>
  match Re.elseMatch line with Some _ => SElse | None =>
  match Re.repeatMatch line with Some c => SRepeat c | None =>
  match Re.whileMatch line with Some c => SWhile c | None =>
  match Re.funcMatch line with Some (f, p) => SFunction f p | None =>
  match Re.returnMatch line with Some e => SReturn e | None =>
  match Re.callMatch line with Some (f, a) => SCall f a | None =>
  SUnknown
  end end end end end end end end end end end.

(** ** Values, thrown objects and the result of a computation *)

(** The values a program of the modelled fragment can hold, [undefined], and
    the members every plain object inherits from Object.prototype. *)
Inductive value : Type :=
| VUndefined
| VNum (n : Z)
| VStr (s : string)
| VBool (b : bool)
| VInherited (key : string).

(** What the code throws: an Error object with its message, the host's own
    TypeError (whose message depends on the engine), and the object
    [{ type: 'return', value }] thrown by a return statement. *)
Inductive thrown : Type :=
| Error (message : string)
| HostTypeError
| ReturnSignal (v : value).

(** A pure computation of the interpreter: a value, an exception, or a
    case that falls outside the modelled fragment of the host language. *)
Inductive result (A : Type) : Type :=
| Ok (a : A)
| Throw (e : thrown)
| Unmodelled.
Arguments Ok {A} a.
Arguments Throw {A} e.
Arguments Unmodelled {A}.

Definition rbind {A B : Type} (r : result A) (k : A -> result B) : result B :=
  match r with
  | Ok a => k a
  | Throw e => Throw e
  | Unmodelled => Unmodelled
  end.

Definition dq : string := String "034"%char EmptyString.

Definition maxExact : Z := 2 ^ 53.

Definition exact (n : Z) : bool := (Z.abs n <=? maxExact)%Z.

(** if (v), while (v), !v *)
Definition truthy (v : value) : bool :=
  match v with
  | VUndefined => false
  | VNum n => negb (n =? 0)%Z
  | VStr s => negb (Str.isEmpty s)
  | VBool b => b
  | VInherited _ => true
  end.

(** String(v) *)
Definition toString (v : value) : result string :=
  match v with
  | VUndefined => Ok "undefined"
  | VNum n => if exact n then Ok (Str.ofZ n) else Unmodelled
  | VStr s => Ok s
  | VBool true => Ok "true"
  | VBool false => Ok "false"
  | VInherited _ => Unmodelled
  end.

(** typeof v *)
Definition typeOf (v : value) : result string :=
  match v with
  | VUndefined => Ok "undefined"
  | VNum _ => Ok "number"
  | VStr _ => Ok "string"
  | VBool _ => Ok "boolean"
  | VInherited _ => Unmodelled
  end.

(** JSON.stringify(s) for a string that needs no escape *)
Definition plainChar (c : ascii) : bool :=
  (32 <=? Chars.code c)%nat && negb (Ascii.eqb c "034") && negb (Ascii.eqb c "\").

Definition jsonStringify (s : string) : result string :=
  if Str.all plainChar s then Ok (dq ++ s ++ dq) else Unmodelled.

(** ** Plain objects used as tables *)

Module Obj.

(** The own and inherited property names of Object.prototype, which the
    [in] operator finds in every table created by an object literal. *)
Definition protoKeys : list string :=
  [ "constructor"; "__defineGetter__"; "__defineSetter__"; "hasOwnProperty";
    "__lookupGetter__"; "__lookupSetter__"; "isPrototypeOf";
    "propertyIsEnumerable"; "toString"; "valueOf"; "__proto__";
    "toLocaleString" ].

Definition inherited (name : string) : bool :=
  existsb (String.eqb name) protoKeys.

(** name in o *)
Definition has {A : Type} (name : string) (o : gmap string A) : bool :=
  match o !! name with
  | Some _ => true
  | None => inherited name
  end.

(** o[name], for a table of values *)
Definition read (name : string) (o : gmap string value) : value :=
  match o !! name with
  | Some v => v
  | None => if inherited name then VInherited name else VUndefined
  end.

(** o[name] = v.  The values of the model are primitives, and assigning a
    primitive to __proto__ runs the inherited setter, which ignores it. *)
Definition write (name : string) (v : value) (o : gmap string value)
  : gmap string value :=
  if String.eqb name "__proto__" then o else <[name := v]> o.

End Obj.

(** ** class Environment *)

Module Environment.

Record t : Type := mk {
  vars : gmap string value;
  consts : gmap string value;
  parent : option nat          (* the address of the parent, or null *)
}.

(** constructor(parent = null) *)
Definition new (parent : option nat) : t :=
  {| vars := ∅; consts := ∅; parent := parent |}.

Definition declareVar (name : string) (v : value) (e : t) : t :=
  {| vars := Obj.write name v (vars e); consts := consts e;
     parent := parent e |}.

Definition declareConst (name : string) (v : value) (e : t) : t :=
  {| vars := vars e; consts := Obj.write name v (consts e);
     parent := parent e |}.

Definition isDeclared (name : string) (e : t) : bool :=
  Obj.has name (vars e) || Obj.has name (consts e).

(** get(name): own vars, own consts, then the parent.  The chain of a heap
    built by the interpreter is no longer than the heap; a dangling address
    or a longer chain is outside the model. *)
Fixpoint getFrom (fuel : nat) (heap : list t) (a : nat) (name : string)
  : result value :=
  match fuel with
  | 0 => Unmodelled
  | S fuel' =>
      match heap !! a with
      | None => Unmodelled
      | Some e =>
          if Obj.has name (vars e) then Ok (Obj.read name (vars e))
          else if Obj.has name (consts e) then Ok (Obj.read name (consts e))
          else match parent e with
               | Some p => getFrom fuel' heap p name
               | None =>
                   Throw (Error ("Variable " ++ dq ++ name ++ dq ++ " not found"))
               end
      end
  end.

Definition get (heap : list t) (a : nat) (name : string) : result value :=
  getFrom (length heap) heap a name.

(** set(name, value): own vars only, then the parent *)
Fixpoint setFrom (fuel : nat) (heap : list t) (a : nat) (name : string)
  (v : value) : result (list t) :=
  match fuel with
  | 0 => Unmodelled
  | S fuel' =>
      match heap !! a with
      | None => Unmodelled
      | Some e =>
          if Obj.has name (vars e) then Ok (<[a := declareVar name v e]> heap)
          else match parent e with
               | Some p => setFrom fuel' heap p name v
               | None =>
                   Throw (Error ("Variable " ++ dq ++ name ++ dq ++ " not declared"))
               end
      end
  end.

Definition set (heap : list t) (a : nat) (name : string) (v : value)
  : result (list t) :=
  setFrom (length heap) heap a name v.

End Environment.

(** ** The host's evaluator

    evalExpression hands the substituted text to the host:
    [Function('"use strict";return (' + safeExpr + ')')()].  The host
    language is not part of the repository; this module gives its meaning on
    a fragment: integer literals without a leading zero, quoted strings
    without escapes, true and false, parentheses, unary [!] and [-], and the
    binary operators [* + - < > <= >= == != === !== && ||] with the host's
    precedence, on operands whose types need no coercion rule beyond string
    concatenation.  A text with no token makes the host throw a SyntaxError;
    every other text outside the fragment is [HostUnknown]. *)

Module Host.
Import Chars Str.

Inductive token : Type :=
| TNum (n : Z)
| TStr (s : string)
| TBool (b : bool)
| TOp (op : string)
| TLParen
| TRParen.

Definition isOpChar (c : ascii) : bool :=
  existsb (Ascii.eqb c)
    ["+"; "-"; "*"; "/"; "%"; "<"; ">"; "="; "!"; "&"; "|"; "^"; "~"; "?"; ":"]%char.

Definition operators : list string :=
  ["!"; "-"; "*"; "+"; "<"; ">"; "<="; ">="; "=="; "!="; "==="; "!==";
   "&&"; "||"].

(** the body of a string literal opened by the quote [q] *)
Definition strChar (q c : ascii) : bool :=
  negb (Ascii.eqb c q) && negb (Ascii.eqb c "\") && isDot c.

(** A run of operator characters is one token when it is one of the
    operators above (the host's longest-match rule then agrees). *)
Fixpoint lex (fuel : nat) (s : string) : option (list token) :=
  match fuel with
  | 0 => if isEmpty s then Some [] else None
  | S fuel' =>
      match s with
      | EmptyString => Some []
      | String c r =>
          if isSpace c then lex fuel' r
          else if isDigit c then
            let (ds, r') := span isDigit s in
            let n := parseDigits ds in
            let leadingZero := Ascii.eqb c "0" && negb (String.length ds =? 1)%nat in
            let glued := match r' with
                         | String d _ => isWord d || Ascii.eqb d "." || Ascii.eqb d "$"
                         | EmptyString => false
                         end in
            if leadingZero || glued || negb (exact n) then None
            else cons (TNum n) <$> lex fuel' r'
          else if isQuote c then
            let (body, r') := span (strChar c) r in
            match r' with
            | String q r'' =>
                if Ascii.eqb q c then cons (TStr body) <$> lex fuel' r'' else None
            | EmptyString => None
            end
          else if Ascii.eqb c "(" then cons TLParen <$> lex fuel' r
          else if Ascii.eqb c ")" then cons TRParen <$> lex fuel' r
          else if isOpChar c then
            let (op, r') := span isOpChar s in
            if existsb (String.eqb op) operators
            then cons (TOp op) <$> lex fuel' r' else None
          else if isIdentStart c then
            let (w, r') := span isWord s in
            let glued := match r' with
                         | String d _ => Ascii.eqb d "$"
                         | EmptyString => false
                         end in
            if glued then None
            else if String.eqb w "true" then cons (TBool true) <$> lex fuel' r'
            else if String.eqb w "false" then cons (TBool false) <$> lex fuel' r'
            else None
          else None
      end
  end.

Inductive unop : Type := Not | Neg.

Inductive binop : Type :=
| Mul | Add | Sub | Lt | Gt | Le | Ge | Eq | Ne | StrictEq | StrictNe | And | Or.

Inductive expr : Type :=
| ELit (v : value)
| EUn (op : unop) (e : expr)
| EBin (op : binop) (l r : expr).

(** the binary operators of each precedence level, tightest first *)
Definition binopAt (level : nat) (op : string) : option binop :=
  match level with
  | 1 => if String.eqb op "*" then Some Mul else None
  | 2 => if String.eqb op "+" then Some Add
         else if String.eqb op "-" then Some Sub else None
  | 3 => if String.eqb op "<" then Some Lt
         else if String.eqb op ">" then Some Gt
         else if String.eqb op "<=" then Some Le
         else if String.eqb op ">=" then Some Ge else None
  | 4 => if String.eqb op "==" then Some Eq
         else if String.eqb op "!=" then Some Ne
         else if String.eqb op "===" then Some StrictEq
         else if String.eqb op "!==" then Some StrictNe else None
  | 5 => if String.eqb op "&&" then Some And else None
  | 6 => if String.eqb op "||" then Some Or else None
  | _ => None
  end.

Definition topLevel : nat := 6.

(** Recursive descent: level 0 is a unary expression, level [S l] a chain
    of level-[l] operands joined, to the left, by the operators of the
    level. *)
Fixpoint parseLevel (fuel : nat) (level : nat) (ts : list token)
  : option (expr * list token) :=
  match fuel with
  | 0 => None
  | S fuel' =>
      match level with
      | 0 =>
          match ts with
          | TNum n :: r => Some (ELit (VNum n), r)
          | TStr s :: r => Some (ELit (VStr s), r)
          | TBool b :: r => Some (ELit (VBool b), r)
          | TLParen :: r =>
              match parseLevel fuel' topLevel r with
              | Some (e, TRParen :: r') => Some (e, r')
              | _ => None
              end
          | TOp op :: r =>
              if String.eqb op "!" then
                match parseLevel fuel' 0 r with
                | Some (e, r') => Some (EUn Not e, r')
                | None => None
                end
              else if String.eqb op "-" then
                match parseLevel fuel' 0 r with
                | Some (e, r') => Some (EUn Neg e, r')
                | None => None
                end
              else None
          | _ => None
          end
      | S l =>
          match parseLevel fuel' l ts with
          | Some (lhs, r) =>
              (fix chain (n : nat) (lhs : expr) (r : list token) {struct n}
                 : option (expr * list token) :=
                 match n with
                 | 0 => None
                 | S n' =>
                     match r with
                     | TOp op :: r1 =>
                         match binopAt (S l) op with
                         | Some b =>
                             match parseLevel fuel' l r1 with
                             | Some (rhs, r2) => chain n' (EBin b lhs rhs) r2
                             | None => None
                             end
                         | None => Some (lhs, r)
                         end
                     | _ => Some (lhs, r)
                     end
                 end) fuel' lhs r
          | None => None
          end
      end
  end.

Definition num (n : Z) : option value :=
  if exact n then Some (VNum n) else None.

Definition sameType (a b : value) : bool :=
  match a, b with
  | VNum _, VNum _ | VStr _, VStr _ | VBool _, VBool _ => true
  | _, _ => false
  end.

(** equality of two values of the same type *)
Definition equalValues (a b : value) : option bool :=
  match a, b with
  | VNum x, VNum y => Some (x =? y)%Z
  | VStr x, VStr y => Some (String.eqb x y)
  | VBool x, VBool y => Some (Bool.eqb x y)
  | _, _ => None
  end.

Definition text (v : value) : option string :=
  match toString v with Ok s => Some s | _ => None end.

Definition evalBin (op : binop) (a b : value) : option value :=
  match op, a, b with
  | Mul, VNum x, VNum y => num (x * y)
  | Add, VNum x, VNum y => num (x + y)
  | Add, VStr x, _ => y ← text b; Some (VStr (x ++ y))
  | Add, _, VStr y => x ← text a; Some (VStr (x ++ y))
  | Sub, VNum x, VNum y => num (x - y)
  | Lt, VNum x, VNum y => Some (VBool (x <? y)%Z)
  | Gt, VNum x, VNum y => Some (VBool (y <? x)%Z)
  | Le, VNum x, VNum y => Some (VBool (x <=? y)%Z)
  | Ge, VNum x, VNum y => Some (VBool (y <=? x)%Z)
  | Eq, _, _ => VBool <$> equalValues a b
  | Ne, _, _ => (fun e => VBool (negb e)) <$> equalValues a b
  | StrictEq, _, _ =>
      if sameType a b then VBool <$> equalValues a b else Some (VBool false)
  | StrictNe, _, _ =>
      if sameType a b then (fun e => VBool (negb e)) <$> equalValues a b
      else Some (VBool true)
  | And, _, _ => Some (if truthy a then b else a)
  | Or, _, _ => Some (if truthy a then a else b)
  | _, _, _ => None
  end.

(** The literals have no effects, so both operands of [&&] and [||] may be
    evaluated; an operand outside the fragment makes the whole unknown. *)
Fixpoint eval (e : expr) : option value :=
  match e with
  | ELit v => Some v
  | EUn Not e1 => v ← eval e1; Some (VBool (negb (truthy v)))
  | EUn Neg e1 =>
      v ← eval e1;
      match v with VNum n => num (- n) | _ => None end
  | EBin op l r => a ← eval l; b ← eval r; evalBin op a b
  end.

Inductive outcome : Type :=
| HostValue (v : value)
| HostThrows
| HostUnknown.

Definition evaluate (safeExpr : string) : outcome :=
  match lex (String.length safeExpr) safeExpr with
  | None => HostUnknown
  | Some [] => HostThrows
  | Some ts =>
      match parseLevel (S (S (length ts)) * S topLevel) topLevel ts with
      | Some (e, []) =>
          match eval e with
          | Some v => HostValue v
          | None => HostUnknown
          end
      | _ => HostUnknown
      end
  end.

End Host.

(** ** evalExpression *)

Notation "'let*' x ':=' c1 'in' c2" := (rbind c1 (fun x => c2))
  (at level 10, x name, c1 at level 100, c2 at level 200).

(** The body of the loop over [parts] in the callback of
    [safeExpr.replace(varIndexRegex, ...)]: one index applied to [val]. *)
Definition applyIndex (val : value) (part : string) : result value :=
  let index := Str.parseDigits part in
  if negb (exact index) then Unmodelled else
  match val with
  | VUndefined => Throw (Error "Cannot index into null or undefined")
  | VStr s =>
      if (Z.of_nat (String.length s) <=? index)%Z
      then Throw (Error ("Index " ++ Str.ofZ index ++ " out of range for string"))
      else match String.get (Z.to_nat index) s with
           | Some c => Ok (VStr (String c EmptyString))
           | None => Unmodelled
           end
  | VNum _ | VBool _ =>
      let* ty := typeOf val in
      Throw (Error ("Cannot index into type " ++ ty))
  | VInherited _ => Unmodelled
  end.

Fixpoint applyIndices (val : value) (parts : list string) : result value :=
  match parts with
  | [] => Ok val
  | part :: rest => let* v := applyIndex val part in applyIndices v rest
  end.

(** the text of one match, as the pattern consumed it *)
Definition matchText (name : string) (indices : list string) : string :=
  name ++ String.concat "" (map (fun d => "[" ++ d ++ "]") indices).

(** The callback: look the name up, apply the indices, and give the text to
    put in place of the match; whatever is thrown inside is rethrown as a
    "Variable or index error". *)
Definition resolve (heap : list Environment.t) (env : nat)
  (name : string) (indices : list string) : result string :=
  let attempt :=
    let* val := Environment.get heap env name in
    let* val := applyIndices val indices in
    match val with
    | VStr s => jsonStringify s
    | _ => toString val
    end in
  match attempt with
  | Throw (Error message) =>
      Throw (Error ("Variable or index error: " ++ matchText name indices
                    ++ " - " ++ message))
  | Throw _ => Unmodelled
  | r => r
  end.

(** safeExpr.replace(varIndexRegex, callback): the matches from left to
    right, the text between them unchanged. *)
Fixpoint replaceRefs (fuel : nat) (heap : list Environment.t) (env : nat)
  (s : string) : result string :=
  match fuel with
  | 0 => Ok s
  | S fuel' =>
      match s with
      | EmptyString => Ok EmptyString
      | String c r =>
          match Re.varIndexMatch s with
          | Some (name, indices, rest) =>
              let* sub := resolve heap env name indices in
              let* tail := replaceRefs fuel' heap env rest in
              Ok (sub ++ tail)
          | None =>
              let* tail := replaceRefs fuel' heap env r in
              Ok (String c tail)
          end
      end
  end.

(** evalExpression(expr, env).  The first replace of the source puts every
    match back unchanged, so [safeExpr] starts as the trimmed expression. *)
Definition evalExpression (expr : string) (heap : list Environment.t)
  (env : nat) : result value :=
  let expr := Str.trim expr in
  let* safeExpr := replaceRefs (String.length expr) heap env expr in
  match Host.evaluate safeExpr with
  | Host.HostValue v => Ok v
  | Host.HostThrows => Throw (Error ("Expression evaluation failed: " ++ expr))
  | Host.HostUnknown => Unmodelled
  end.

(** ** class Runtime and the function table *)

Record FunctionDef : Type := {
  params : list string;
  bodyStart : nat;
  bodyEnd : nat;
  bodyLines : list string
}.

(** The session: the Environment objects allocated so far, the address of
    the global one, the current one and the function table.  (The table of
    classes is never read or written.) *)
Record Runtime : Type := {
  heap : list Environment.t;
  globalEnv : nat;
  currentEnv : nat;
  functions : gmap string FunctionDef
}.

(** reset() *)
Definition reset : Runtime :=
  {| heap := [Environment.new None]; globalEnv := 0; currentEnv := 0;
     functions := ∅ |}.

Definition withHeap (h : list Environment.t) (rt : Runtime) : Runtime :=
  {| heap := h; globalEnv := globalEnv rt; currentEnv := currentEnv rt;
     functions := functions rt |}.

Definition withFunction (name : string) (f : FunctionDef) (rt : Runtime)
  : Runtime :=
  {| heap := heap rt; globalEnv := globalEnv rt; currentEnv := currentEnv rt;
     functions := <[name := f]> (functions rt) |}.

(** getVariable(name): a lookup from the current Environment *)
Definition getVariable (name : string) (rt : Runtime) : result value :=
  Environment.get (heap rt) (currentEnv rt) name.

(** ** parseValue

    The helper that turns the text of a literal into a value.  Nothing in
    the file calls it: the statements evaluate their expressions with
    evalExpression. *)

(** Number(s) for a trimmed string, as far as the model goes: the empty
    string is 0, an optionally signed run of decimal digits is its value,
    and a string without any digit, other than a signed Infinity, is NaN. *)
Inductive numeric : Type :=
| IsNumber (n : Z)
| IsNaN
| NumericUnknown.

Definition hasDigit (s : string) : bool :=
  negb (Str.all (fun c => negb (Chars.isDigit c)) s).

Definition toNumber (s : string) : numeric :=
  let integer (sign : Z) (digits : string) :=
    let n := (sign * Str.parseDigits digits)%Z in
    if Str.all Chars.isDigit digits && negb (Str.isEmpty digits) && exact n
    then IsNumber n else NumericUnknown in
  if Str.isEmpty s then IsNumber 0
  else if negb (hasDigit s) then
    if String.eqb s "Infinity" || String.eqb s "+Infinity"
       || String.eqb s "-Infinity"
    then NumericUnknown else IsNaN
  else match s with
       | String "+" digits => integer 1%Z digits
       | String "-" digits => integer (-1)%Z digits
       | _ => integer 1%Z s
       end.

(** the two tests of a quoted string: the quote [q], a greedy run of dots,
    the quote [q], the end *)
Definition quotedBy (q : ascii) (s : string) : bool :=
  match Re.one (Ascii.eqb q)
          (Re.many Chars.isDot 0 (fun _ => Re.one (Ascii.eqb q) (Re.eos tt))) s
  with
  | Some _ => true
  | None => false
  end.

Definition endsWith (suffix s : string) : bool :=
  match Str.stripSuffix suffix s with Some _ => true | None => false end.

(** parseValue(valStr); list and map literals go through JSON.parse, which
    is outside the model *)
Definition parseValue (valStr : string) (rt : Runtime) : result value :=
  let valStr := Str.trim valStr in
  if quotedBy "034" valStr || quotedBy "'" valStr then Ok (VStr (Str.slice1 valStr))
  else match toNumber valStr with
       | IsNumber n => Ok (VNum n)
       | NumericUnknown => Unmodelled
       | IsNaN =>
           if String.eqb valStr "true" then Ok (VBool true)
           else if String.eqb valStr "false" then Ok (VBool false)
           else if Str.startsWith "[" valStr && endsWith "]" valStr
           then Unmodelled
           else if Str.startsWith "{" valStr && endsWith "}" valStr
           then Unmodelled
           else getVariable valStr rt
       end.

(** ** Computations of the block interpreter

    interpretBlock reads and writes the session, throws, and may not
    terminate: a computation takes the session and ends with a value and
    the session, with a thrown object and the session, out of fuel, or
    outside the model. *)

Inductive answer (A : Type) : Type :=
| Returned (a : A) (rt : Runtime)
| Threw (e : thrown) (rt : Runtime)
| OutOfFuel
| OutsideModel.
Arguments Returned {A} a rt.
Arguments Threw {A} e rt.
Arguments OutOfFuel {A}.
Arguments OutsideModel {A}.

Definition M (A : Type) : Type := Runtime -> answer A.

Definition ret {A : Type} (a : A) : M A := fun rt => Returned a rt.

Definition bind {A B : Type} (m : M A) (k : A -> M B) : M B :=
  fun rt =>
    match m rt with
    | Returned a rt' => k a rt'
    | Threw e rt' => Threw e rt'
    | OutOfFuel => OutOfFuel
    | OutsideModel => OutsideModel
    end.

Definition throw {A : Type} (e : thrown) : M A := fun rt => Threw e rt.

Definition outOfFuel {A : Type} : M A := fun _ => OutOfFuel.

Definition outsideModel {A : Type} : M A := fun _ => OutsideModel.

(** try { m } catch (e) { handler e } *)
Definition tryCatch {A : Type} (m : M A) (handler : thrown -> M A) : M A :=
  fun rt =>
    match m rt with
    | Threw e rt' => handler e rt'
    | a => a
    end.

(** a pure computation that reads the heap *)
Definition lift {A : Type} (f : list Environment.t -> result A) : M A :=
  fun rt =>
    match f (heap rt) with
    | Ok a => Returned a rt
    | Throw e => Threw e rt
    | Unmodelled => OutsideModel
    end.

Notation "'do' x <- c1 ; c2" := (bind c1 (fun x => c2))
  (at level 10, x name, c1 at level 100, c2 at level 200).

(** new Environment(parent) *)
Definition newEnvironment (parent : option nat) : M nat :=
  fun rt =>
    Returned (length (heap rt))
             (withHeap (heap rt ++ [Environment.new parent]) rt).

(** a method of the Environment at address [env] that stays in it *)
Definition onEnv {A : Type} (env : nat) (f : Environment.t -> A) : M A :=
  fun rt =>
    match heap rt !! env with
    | Some e => Returned (f e) rt
    | None => OutsideModel
    end.

Definition updateEnv (env : nat) (f : Environment.t -> Environment.t)
  : M unit :=
  fun rt =>
    match heap rt !! env with
    | Some e => Returned tt (withHeap (<[env := f e]> (heap rt)) rt)
    | None => OutsideModel
    end.

Definition isDeclared (env : nat) (name : string) : M bool :=
  onEnv env (Environment.isDeclared name).

Definition declareVar (env : nat) (name : string) (v : value) : M unit :=
  updateEnv env (Environment.declareVar name v).

Definition declareConst (env : nat) (name : string) (v : value) : M unit :=
  updateEnv env (Environment.declareConst name v).

(** env.set(name, value) *)
Definition envSet (env : nat) (name : string) (v : value) : M unit :=
  fun rt =>
    match Environment.set (heap rt) env name v with
    | Ok h => Returned tt (withHeap h rt)
    | Throw e => Threw e rt
    | Unmodelled => OutsideModel
    end.

Definition eval (expr : string) (env : nat) : M value :=
  lift (fun h => evalExpression expr h env).

(** ** interpretBlock *)

(** What a call of interpretBlock gives back: its [output] array, or, when
    a call statement ended the block, whatever that statement returned. *)
Inductive blockValue : Type :=
| Output (lines : list string)
| Value (v : value).

(** while (blockEnd < lines.length && lines[blockEnd].startsWith('    '))
    blockEnd++ *)
Fixpoint scanFrom (rest : list string) (blockEnd : nat) : nat :=
  match rest with
  | l :: rest' =>
      if Str.startsWith "    " l then scanFrom rest' (S blockEnd) else blockEnd
  | [] => blockEnd
  end.

Definition scanBlock (lines : list string) (blockStart : nat) : nat :=
  scanFrom (drop blockStart lines) blockStart.

(** lines.slice(blockStart, blockEnd) *)
Definition slice (lines : list string) (blockStart blockEnd : nat)
  : list string :=
  take (blockEnd - blockStart) (drop blockStart lines).

(** output.push(...blockOutput): an array gives its elements, a string its
    characters, anything else is not iterable.  The list stands for an
    array of fewer than 2^32 elements; a push past that length throws in
    the source, and no such output is asserted below. *)
Definition pushAll (output : list string) (blockOutput : blockValue)
  : M (list string) :=
  match blockOutput with
  | Output l => ret (output ++ l)%list
  | Value (VStr s) => ret (output ++ Str.chars s)%list
  | Value (VInherited _) => outsideModel
  | Value _ => throw HostTypeError
  end.

(** r.output, for the result r of interpretBlock: no array, string, number
    or boolean has such a property; reading it from undefined throws *)
Definition outputProperty (r : blockValue) : M blockValue :=
  match r with
  | Value VUndefined => throw HostTypeError
  | Value (VInherited _) => outsideModel
  | _ => ret (Value VUndefined)
  end.

(** e.message *)
Definition messageOf (e : thrown) : M string :=
  match e with
  | Error message => ret message
  | _ => outsideModel
  end.

(** paramsStr.trim() ? paramsStr.split(',').map(s => s.trim()) : [] *)
Definition splitList (str : string) : list string :=
  if Str.isEmpty (Str.trim str) then []
  else map Str.trim (Str.split "," str).

Fixpoint mapM {A B : Type} (f : A -> M B) (l : list A) : M (list B) :=
  match l with
  | [] => ret []
  | a :: l' => do b <- f a; do bs <- mapM f l'; ret (b :: bs)
  end.

(** for (let j = 0; j < args.length; j++) funcEnv.declareVar(params[j], args[j])
    (the two lists have the same length when the loop is reached) *)
Fixpoint bindParams (funcEnv : nat) (params : list string) (args : list value)
  : M unit :=
  match params, args with
  | p :: params', a :: args' =>
      do _ <- declareVar funcEnv p a; bindParams funcEnv params' args'
  | _, _ => ret tt
  end.

(** The scope of a call:
    let funcEnv = new Environment(runtime.globalEnv), then the loop that
    declares the parameters in it. *)
Definition enterCall (func : FunctionDef) (args : list value) : M nat :=
  do global <- (fun rt => Returned (globalEnv rt) rt);
  do funcEnv <- newEnvironment (Some global);
  do _ <- bindParams funcEnv (params func) args;
  ret funcEnv.

(** for (let c = 0; c < count; c++) { output.push(...body()) } *)
Fixpoint forLoop (body : M blockValue) (count : nat) (output : list string)
  : M (list string) :=
  match count with
  | 0 => ret output
  | S count' =>
      do blockOutput <- body;
      do output' <- pushAll output blockOutput;
      forLoop body count' output'
  end.

(** while (cond()) { output.push(...body()) } *)
Fixpoint whileLoop (fuel : nat) (cond : M value) (body : M blockValue)
  (output : list string) : M (list string) :=
  match fuel with
  | 0 => outOfFuel
  | S fuel' =>
      do c <- cond;
      if truthy c then
        do blockOutput <- body;
        do output' <- pushAll output blockOutput;
        whileLoop fuel' cond body output'
      else ret output
  end.

Definition quote (s : string) : string := dq ++ s ++ dq.

(** The loop of interpretBlock from line [i], with the [output] gathered so
    far.  One unit of fuel is spent per statement; nested blocks and loops
    run on what is left. *)
Fixpoint interpretLoop (fuel : nat) (lines : list string) (i end_ : nat)
  (env : nat) (output : list string) : M blockValue :=
  match fuel with
  | 0 => outOfFuel
  | S fuel' =>
    let interpretBlock ls start stop e := interpretLoop fuel' ls start stop e [] in
    let continue i' output' := interpretLoop fuel' lines i' end_ env output' in
    let blockStart := i + 1 in
    let blockEnd := scanBlock lines blockStart in
    let childBlock :=
      do child <- newEnvironment (Some env);
      interpretBlock lines blockStart blockEnd child in
    if negb (i <? end_)%nat then ret (Output output) else
    match lines !! i with
    | None => throw HostTypeError
    | Some raw =>
      let line := Str.trim raw in
      match classify line with
      | SSkip => continue (i + 1) output
      | SLet varName expr =>
          do val <- eval expr env;
          do declared <- isDeclared env varName;
          if declared
          then throw (Error ("Variable " ++ quote varName ++ " already declared"))
          else do _ <- declareVar env varName val; continue (i + 1) output
      | SSet varName expr =>
          do val <- eval expr env;
          do declared <- isDeclared env varName;
          if declared
          then throw (Error ("Variable " ++ quote varName ++ " already declared"))
          else do _ <- declareConst env varName val; continue (i + 1) output
      | SAssign varName expr =>
          do declared <- isDeclared env varName;
          if negb declared
          then throw (Error ("Variable " ++ quote varName ++ " not declared"))
          else
            do val <- eval expr env;
            do _ <- envSet env varName val;
            continue (i + 1) output
      | SSay arg =>
          if Re.quotedLiteral arg
          then continue (i + 1) (output ++ [Str.slice1 arg])%list
          else
            do text <- tryCatch
                         (do val <- eval arg env; lift (fun _ => toString val))
                         (fun e => do message <- messageOf e;
                                   ret ("Error in say: " ++ message));
            continue (i + 1) (output ++ [text])%list
      | SIf condExpr =>
          do condResult <- eval condExpr env;
          if truthy condResult then
            do blockOutput <- childBlock;
            do output' <- pushAll output blockOutput;
            continue blockEnd output'
          else continue blockEnd output
      | SElse =>
          do blockOutput <- childBlock;
          do output' <- pushAll output blockOutput;
          continue blockEnd output'
      | SRepeat digits =>
          let count := Str.parseDigits digits in
          if negb (exact count) then outsideModel else
          do output' <- forLoop childBlock (Z.to_nat count) output;
          continue blockEnd output'
      | SWhile condExpr =>
          do output' <- whileLoop fuel' (eval condExpr env) childBlock output;
          continue blockEnd output'
      | SFunction funcName paramsStr =>
          if String.eqb funcName "__proto__" then outsideModel else
          let def := {| params := splitList paramsStr;
                        bodyStart := blockStart;
                        bodyEnd := blockEnd;
                        bodyLines := slice lines blockStart blockEnd |} in
          do _ <- (fun rt => Returned tt (withFunction funcName def rt));
          continue blockEnd output
      | SReturn expr =>
          do val <- eval expr env;
          throw (ReturnSignal val)
      | SCall funcName argsStr =>
          do table <- (fun rt => Returned (functions rt) rt);
          if negb (Obj.has funcName table)
          then throw (Error ("Function " ++ quote funcName ++ " not found"))
          else
            do args <- (if Str.isEmpty (Str.trim argsStr) then ret []
                        else mapM (fun a => eval (Str.trim a) env)
                                  (Str.split "," argsStr));
            match table !! funcName with
            | None => throw HostTypeError      (* func.params is undefined *)
            | Some func =>
                if negb (length args =? length (params func))%nat
                then throw (Error ("Function " ++ quote funcName ++ " expects "
                                   ++ Str.ofZ (Z.of_nat (length (params func)))
                                   ++ " arguments"))
                else
                  do funcEnv <- enterCall func args;
                  tryCatch
                    (do r <- interpretBlock (bodyLines func) 0
                                            (length (bodyLines func)) funcEnv;
                     outputProperty r)
                    (fun e => match e with
                              | ReturnSignal v => ret (Value v)
                              | _ => throw e
                              end)
            end
      | SUnknown =>
          throw (Error ("Unknown or unsupported statement: " ++ line))
      end
    end
  end.

(** interpretBlock(lines, start, end, env) *)
Definition interpretBlock (fuel : nat) (lines : list string) (start end_ : nat)
  (env : nat) : M blockValue :=
  interpretLoop fuel lines start end_ env [].

(** interpret(lines) *)
Definition interpret (fuel : nat) (lines : list string) : answer blockValue :=
  interpretBlock fuel lines 0 (length lines) (globalEnv reset) reset.

(** what the caller of interpret observes *)
Inductive observed : Type :=
| Result (v : blockValue)
| Exception (e : thrown)
| NoAnswer.

Definition observe (a : answer blockValue) : observed :=
  match a with
  | Returned v _ => Result v
  | Threw e _ => Exception e
  | _ => NoAnswer
  end.

Definition run (fuel : nat) (lines : list string) : observed :=
  observe (interpret fuel lines).


(** ** Notions used to state the properties *)

(** the number of spaces a line begins with *)
Definition indentOf (line : string) : nat :=
  String.length (fst (Str.span (Ascii.eqb " ") line)).

(** A nested body as the specification words it: every line of the body of
    the construct whose header is at index [header] is indented at least
    one more four-space unit than the header. *)
Definition claimedNestedBody (lines : list string) (header : nat) : Prop :=
  forall h k l,
    lines !! header = Some h -> lines !! k = Some l ->
    (header < k < scanBlock lines (header + 1))%nat ->
    (indentOf h + 4 <= indentOf l)%nat.

(** a non-empty run of decimal digits *)
Definition isCount (s : string) : bool :=
  Str.all Chars.isDigit s && negb (Str.isEmpty s).

(** a name as varIndexRegex matches it: a letter or underscore, then \w* *)
Definition isIdentifier (s : string) : bool :=
  match s with
  | String c _ => Chars.isIdentStart c && Str.all Chars.isWord s
  | EmptyString => false
  end.

(** the line [repeat N:] *)
Definition repeatLine (N : string) : string := "repeat " ++ N ++ ":".


(** the heap of a session that has just been reset *)
Definition rootHeap : list Environment.t := [Environment.new None].

(** *** Programs *)

Definition sayProgram : list string :=
  [ "let x = 5";
    "say x" ].

Definition repeatProgram : list string :=
  [ "repeat 3:";
    "    say " ++ quote "hi" ].

Definition ifElseProgram : list string :=
  [ "let x = 10";
    "if x > 5:";
    "    say " ++ quote "big";
    "else:";
    "    say " ++ quote "small" ].

Definition assignInBlockProgram : list string :=
  [ "let x = 1";
    "if 1 < 2:";
    "    x = 2";
    "say x" ].

Definition callThenSayProgram : list string :=
  [ "function greet():";
    "    say " ++ quote "in";
    "say " ++ quote "before";
    "greet()";
    "say " ++ quote "after" ].

Definition addProgram : list string :=
  [ "function add(a, b):";
    "    return a + b";
    "add(2, 3)" ].

Definition nestedProgram : list string :=
  [ "repeat 1:";
    "    if 1 > 2:";
    "        say " ++ quote "a";
    "    say " ++ quote "b" ].

(** the same nesting for the other block-introducing constructs: a header
    at one unit, a line at two units, then a line at the header's depth *)
Definition nestedIfProgram : list string :=
  [ "repeat 1:";
    "    if 1 < 2:";
    "        let x = 1";
    "    say x" ].

Definition nestedElseProgram : list string :=
  [ "repeat 1:";
    "    else:";
    "        let x = 1";
    "    say x" ].

Definition nestedRepeatProgram : list string :=
  [ "repeat 1:";
    "    repeat 2:";
    "        say " ++ quote "a";
    "    say " ++ quote "b" ].

Definition nestedWhileProgram : list string :=
  [ "repeat 1:";
    "    while 1 > 2:";
    "        say " ++ quote "a";
    "    say " ++ quote "b" ].

Definition nestedFunctionProgram : list string :=
  [ "repeat 1:";
    "    function f():";
    "        say " ++ quote "a";
    "    say " ++ quote "b" ].

(** what [say x] gives where [x] is not visible *)
Definition xNotFound : string :=
  "Error in say: Variable or index error: x - Variable " ++ quote "x"
  ++ " not found".

Definition constProgram : list string :=
  [ "set PI = 3";
    "PI = 4" ].


(** a session in which a block scope (address 1) binds [y] *)
Definition callerSession : Runtime :=
  withFunction "peek"
    {| params := []; bodyStart := 1; bodyEnd := 2;
       bodyLines := ["    return y"] |}
    (withHeap [Environment.new None;
               Environment.declareVar "y" (VNum 1) (Environment.new (Some 0))]
              reset).

(** ** Notions used to state the further properties *)

(** every parent was created before its child *)
Definition ordered (h : list Environment.t) : Prop :=
  forall a e p,
    h !! a = Some e -> Environment.parent e = Some p -> (p < a)%nat.

(** the scope [e'] is the scope [e] at a later time: the same parent, and
    every constant of [e] with the value it had and, when no var of [e] hid
    it, still not hidden *)
Definition keeps (e e' : Environment.t) : Prop :=
  Environment.parent e' = Environment.parent e
  /\ forall x v,
       Environment.consts e !! x = Some v ->
       Environment.consts e' !! x = Some v
       /\ (Obj.has x (Environment.vars e) = false ->
           Obj.has x (Environment.vars e') = false).

(** the session [rt'] is the session [rt] at a later time: the same global
    scope, every scope of [rt] kept, and every scope created since hanging
    from a scope created before it *)
Definition grows (rt rt' : Runtime) : Prop :=
  globalEnv rt' = globalEnv rt
  /\ (length (heap rt) <= length (heap rt'))%nat
  /\ (forall a e, heap rt !! a = Some e ->
        exists e', heap rt' !! a = Some e' /\ keeps e e')
  /\ (forall a e', (length (heap rt) <= a)%nat -> heap rt' !! a = Some e' ->
        exists p, Environment.parent e' = Some p /\ (p < a)%nat).

(** a computation that, run in a session whose scopes up to address [n]
    exist, ends in a later session *)
Definition sound {A : Type} (n : nat) (m : M A) : Prop :=
  forall rt,
    (globalEnv rt < length (heap rt))%nat -> (n <= length (heap rt))%nat ->
    match m rt with
    | Returned _ rt' | Threw _ rt' => grows rt rt'
    | _ => True
    end.

(** the scopes a lookup from address [a] can visit, nearest first: the
    scope at [a], its parent, and so on *)
Fixpoint chainFrom (fuel : nat) (h : list Environment.t) (a : nat)
  : list Environment.t :=
  match fuel with
  | 0 => []
  | S fuel' =>
      match h !! a with
      | None => []
      | Some e =>
          e :: match Environment.parent e with
               | Some p => chainFrom fuel' h p
               | None => []
               end
      end
  end.

Definition chain (h : list Environment.t) (a : nat) : list Environment.t :=
  chainFrom (length h) h a.

(** a list of scopes in which each is followed by its parent, and the last
    has none *)
Fixpoint linked (h : list Environment.t) (es : list Environment.t) : Prop :=
  match es with
  | [] => True
  | e :: es' =>
      match es' with
      | [] => Environment.parent e = None
      | e' :: _ =>
          exists p, Environment.parent e = Some p /\ h !! p = Some e'
      end
      /\ linked h es'
  end.

(** what a scope that declares the name holds under it: its var, and only
    without one its constant *)
Definition ownValue (name : string) (e : Environment.t) : value :=
  if Obj.has name (Environment.vars e)
  then Obj.read name (Environment.vars e)
  else Obj.read name (Environment.consts e).

(** the greatest length of an array, which the output of a run is *)
Definition maxArrayLength : Z := 2 ^ 32 - 1.

(** the line [let y = s] *)
Definition letLine (y s : string) : string := "let " ++ y ++ " = " ++ s.

(** the line [say arg] *)
Definition sayLine (arg : string) : string := "say " ++ arg.

(** the line [f()] *)
Definition callLine (f : string) : string := f ++ "()".

(** the expression [y[ds]] *)
Definition indexedName (y ds : string) : string := y ++ "[" ++ ds ++ "]".

(** a nonempty run of \w, as the call pattern captures a function name *)
Definition isWordRun (f : string) : bool :=
  Str.all Chars.isWord f && negb (Str.isEmpty f).

(** a numeral as the host reads it in strict mode: digits, no leading zero,
    a number the model represents exactly *)
Definition numeral (s : string) : bool :=
  match s with
  | String c r =>
      Str.all Chars.isDigit s
      && negb (Ascii.eqb c "0" && negb (String.length s =? 1)%nat)
      && exact (Str.parseDigits s)
  | EmptyString => false
  end.

(** the values whose text, put in place of a name, the host reads back *)
Definition printable (v : value) : bool :=
  match v with
  | VNum n => exact n
  | VStr s => Str.all plainChar s
  | VBool _ => true
  | _ => false
  end.

(** a character of a string literal that is no part of a name *)
Definition literalChar (c : ascii) : bool :=
  Host.strChar "034" c && negb (Chars.isIdentStart c).

(** *** Sessions *)

(** the global scope after [let n = 1] and [set PI = 3] *)
Definition scopedGlobal : Environment.t :=
  Environment.declareConst "PI" (VNum 3)
    (Environment.declareVar "n" (VNum 1) (Environment.new None)).

(** a block scope under it after [let s = "abc"] *)
Definition scopedBlock : Environment.t :=
  Environment.declareVar "s" (VStr "abc") (Environment.new (Some 0)).

Definition scopedSession : Runtime :=
  withHeap [scopedGlobal; scopedBlock] reset.

(** the session after the definition of [add] in [addProgram] *)
Definition addSession : Runtime :=
  withFunction "add"
    {| params := ["a"; "b"]; bodyStart := 1; bodyEnd := 2;
       bodyLines := ["    return a + b"] |}
    reset.


(** * Properties *)

Import Chars Str Re.

(** ** Strings *)

Lemma append_cons (c : ascii) (a b : string) :
  String c a ++ b = String c (a ++ b).
Proof. reflexivity. Qed.

Lemma append_nil (b : string) : "" ++ b = b.
Proof. reflexivity. Qed.

Lemma isEmpty_append_colon (s : string) : isEmpty (s ++ ":") = false.
Proof. destruct s; reflexivity. Qed.

Lemma trimEnd_colon (s : string) : trimEnd (s ++ ":") = s ++ ":".
Proof.
  induction s as [|c s IH]; [reflexivity|].
  rewrite append_cons. cbn [trimEnd]. rewrite IH, isEmpty_append_colon.
  reflexivity.
Qed.

Lemma span_append_colon (p : ascii -> bool) (s : string) :
  p ":"%char = false ->
  span p (s ++ ":") = (fst (span p s), snd (span p s) ++ ":").
Proof.
  intros Hp. induction s as [|c s IH].
  - rewrite append_nil. cbn. rewrite Hp. reflexivity.
  - rewrite append_cons. cbn [span]. destruct (p c); [|reflexivity].
    rewrite IH. destruct (span p s). reflexivity.
Qed.

Lemma trimStart_append_colon (s : string) :
  trimStart (s ++ ":") = trimStart s ++ ":".
Proof. unfold trimStart. rewrite span_append_colon; reflexivity. Qed.

Lemma space_not (c d : ascii) :
  isSpace c = true -> isSpace d = false -> Ascii.eqb d c = false.
Proof.
  intros Hc Hd. destruct (Ascii.eqb_spec d c) as [->|]; [congruence|reflexivity].
Qed.

(** ** The greedy quantifier *)

Section Many.
Context {A : Type}.

(** [many] fails when the rest of the pattern fails after every run it
    may take. *)
Lemma many_none (p : ascii -> bool) (s : string) :
  forall (min : nat) (k : string -> string -> option A),
    (forall m r, s = m ++ r -> all p m = true -> k m r = None) ->
    many p min k s = None.
Proof.
  induction s as [|c s IH]; intros min k Hk.
  - cbn. destruct (min =? 0)%nat; [apply (Hk "" ""); reflexivity | reflexivity].
  - cbn [many].
    assert (Hstop : (if (min =? 0)%nat then k "" (String c s) else None) = None).
    { destruct (min =? 0)%nat; [apply (Hk "" (String c s)); reflexivity | reflexivity]. }
    destruct (p c) eqn:Hc; [|exact Hstop].
    rewrite IH; [exact Hstop|].
    intros m r -> Hm. apply (Hk (String c m) r); [reflexivity|].
    cbn. rewrite Hc. exact Hm.
Qed.

End Many.

Lemma trimStart_blank (c : ascii) (s : string) :
  isSpace c = true -> trimStart (String c s) = trimStart s.
Proof.
  intros Hc. unfold trimStart. cbn [span]. rewrite Hc.
  destruct (span isSpace s). reflexivity.
Qed.

Lemma startsWith_after_blanks (s m r : string) :
  s = m ++ r -> all isSpace m = true ->
  startsWith "=" (trimStart s) = false -> startsWith "=" r = false.
Proof.
  revert s. induction m as [|c m IH]; intros s -> Hm Hs.
  - rewrite append_nil in Hs. destruct r as [|c r]; [reflexivity|].
    unfold trimStart in Hs. cbn [span] in Hs.
    destruct (isSpace c) eqn:Hc.
    + unfold startsWith. cbn [stripPrefix].
      rewrite (space_not c "="); [reflexivity | exact Hc | reflexivity].
    + exact Hs.
  - cbn [all] in Hm. apply andb_true_iff in Hm as [Hc Hm].
    apply (IH (m ++ r)); [reflexivity | exact Hm |].
    rewrite append_cons in Hs. unfold trimStart in *. cbn [span] in Hs.
    rewrite Hc in Hs. destruct (span isSpace (m ++ r)). exact Hs.
Qed.

Lemma blanks_then_equals_none {A : Type} (K : string -> option A)
  (min : nat) (s : string) :
  startsWith "=" (trimStart s) = false ->
  many isSpace min (fun _ => lit "=" K) s = None.
Proof.
  intros Hs. apply many_none. intros m r Hsplit Hm.
  pose proof (startsWith_after_blanks s m r Hsplit Hm Hs) as Hr.
  unfold lit. unfold startsWith in Hr.
  destruct (stripPrefix "=" r); [discriminate|reflexivity].
Qed.

(** a run of digits followed by the final colon *)
Lemma digits_then_colon_none {A : Type} (f : string -> A) (M : string) :
  forall (min : nat) (g : string -> string),
    all isDigit M = false \/ (M = "" /\ min <> 0) ->
    many isDigit min (fun d => lit ":" (eos (f (g d)))) (M ++ ":") = None.
Proof.
  induction M as [|c M IH]; intros min g H.
  - destruct H as [H|[_ H]]; [discriminate|].
    rewrite append_nil. cbn. destruct min; [congruence|reflexivity].
  - rewrite append_cons. cbn [many].
    assert (Hstop : (if (min =? 0)%nat
                     then lit ":" (eos (f (g ""))) (String c (M ++ ":"))
                     else None) = None).
    { destruct (min =? 0)%nat; [|reflexivity].
      unfold lit. cbn [stripPrefix].
      destruct (Ascii.eqb ":" c); [|reflexivity].
      unfold eos. rewrite isEmpty_append_colon. reflexivity. }
    destruct (isDigit c) eqn:Hc; [|exact Hstop].
    rewrite (IH (pred min) (fun m => g (String c m))); [exact Hstop|].
    left. destruct H as [H|[H _]]; [|discriminate].
    cbn [all] in H. rewrite Hc in H. exact H.
Qed.

Lemma blanks_then_count_none (N : string) :
  forall (min : nat),
  isCount (trimStart N) = false ->
  many isSpace min (fun _ => many isDigit 1 (fun d => lit ":" (eos d)))
       (N ++ ":") = None.
Proof.
  induction N as [|c N IH]; intros min HN.
  - rewrite append_nil. cbn. destruct (min =? 0)%nat; reflexivity.
  - rewrite append_cons. cbn [many].
    assert (Hstop : (if (min =? 0)%nat
                     then many isDigit 1 (fun d => lit ":" (eos d))
                            (String c (N ++ ":"))
                     else None) = None).
    { destruct (min =? 0)%nat; [|reflexivity].
      destruct (isSpace c) eqn:Hc.
      - cbn [many].
        replace (isDigit c) with false; [reflexivity|].
        revert Hc. unfold isSpace, isDigit. 
        destruct (code c) as [|n]; [discriminate|].
        do 48 (destruct n as [|n]; [vm_compute; congruence|]).
        do 10 (destruct n as [|n]; [vm_compute; congruence|]).
        intros _. reflexivity.
      - rewrite <- append_cons.
        apply (digits_then_colon_none (fun d => d) (String c N) 1 (fun d => d)).
        unfold trimStart in HN. cbn [span] in HN. rewrite Hc in HN.
        cbn [snd] in HN. unfold isCount in HN.
        apply andb_false_iff in HN as [HN|HN]; [left; exact HN | discriminate]. }
    destruct (isSpace c) eqn:Hc; [|exact Hstop].
    rewrite IH; [exact Hstop|].
    unfold trimStart in *. cbn [span] in HN. rewrite Hc in HN.
    destruct (span isSpace N). exact HN.
Qed.

Lemma split_cons (c : ascii) (s m r : string) :
  String c s = m ++ r ->
  (m = "" /\ r = String c s) \/ (exists m', m = String c m' /\ s = m' ++ r).
Proof.
  destruct m as [|d m]; intros H.
  - left. split; [reflexivity | symmetry; exact H].
  - right. rewrite append_cons in H. injection H as -> ->. eauto.
Qed.

(** ** Classification of the lines that begin with "repeat " *)

Lemma repeatLine_cons (N : string) :
  repeatLine N = String "r" (String "e" (String "p" (String "e" (String "a"
                   (String "t" (String " " (N ++ ":"))))))).
Proof. reflexivity. Qed.

Lemma trim_repeatLine (N : string) : trim (repeatLine N) = repeatLine N.
Proof.
  unfold trim.
  replace (trimStart (repeatLine N)) with (repeatLine N) by reflexivity.
  change (repeatLine N) with (("repeat " ++ N) ++ ":"). apply trimEnd_colon.
Qed.

Lemma classify_repeatLine (N : string) :
  isCount (trimStart N) = false ->
  startsWith "=" (trimStart N) = false ->
  classify (repeatLine N) = SUnknown.
Proof.
  intros Hcount Heq.
  assert (Heq' : startsWith "=" (trimStart (String " " (N ++ ":"))) = false).
  { rewrite trimStart_blank by reflexivity.
    rewrite trimStart_append_colon.
    destruct (trimStart N); [reflexivity|].
    rewrite append_cons. unfold startsWith in *. cbn [stripPrefix] in *.
    destruct (Ascii.eqb "=" a); [discriminate | reflexivity]. }
  assert (Hcount' : forall min,
    many isSpace min (fun _ => many isDigit 1 (fun d => lit ":" (eos d)))
      (String " " (N ++ ":")) = None).
  { intros min. rewrite <- append_cons. apply blanks_then_count_none.
    rewrite trimStart_blank by reflexivity. exact Hcount. }
  unfold classify. rewrite repeatLine_cons.
  set (line := String "r" _).
  change (isEmpty line || startsWith "#" line) with false. cbv iota.
  change (letMatch line) with (@None (string * string)).
  change (setMatch line) with (@None (string * string)). cbv iota.
  assert (Hassign : assignMatch line = None).
  { unfold assignMatch. apply many_none. intros m r Hsplit Hm.
    apply blanks_then_equals_none. unfold line in Hsplit.
    do 7 (apply split_cons in Hsplit as [[-> ->] | [? [-> Hsplit]]];
          [ first [ reflexivity | exact Heq' ] | ]).
    discriminate Hm. }
  rewrite Hassign.
  change (sayMatch line) with (@None string).
  change (ifMatch line) with (@None string).
  change (elseMatch line) with (@None unit). cbv iota.
  assert (Hrepeat : repeatMatch line = None) by (unfold repeatMatch; apply Hcount').
  rewrite Hrepeat.
  change (whileMatch line) with (@None string).
  change (funcMatch line) with (@None (string * string)).
  change (returnMatch line) with (@None string). cbv iota.
  assert (Hcall : callMatch line = None).
  { unfold callMatch. apply many_none. intros m r Hsplit Hm.
    unfold line in Hsplit.
    do 7 (apply split_cons in Hsplit as [[-> ->] | [? [-> Hsplit]]];
          [ reflexivity | ]).
    discriminate Hm. }
  rewrite Hcall. reflexivity.
Qed.

(** ** Names in expressions *)

Lemma append_nil_r (s : string) : s ++ "" = s.
Proof. induction s as [|c s IH]; [reflexivity|]. 
  change (String c s ++ "") with (String c (s ++ "")). rewrite IH. reflexivity. Qed.

Lemma word_not_space (c : ascii) : isWord c = true -> isSpace c = false.
Proof.
  unfold isWord, isAlpha, isDigit, isSpace.
  destruct (code c) as [|n]; [reflexivity|].
  do 8 (destruct n as [|n]; [reflexivity|]).
  do 5 (destruct n as [|n]; [intros H; vm_compute in H; discriminate|]).
  do 18 (destruct n as [|n]; [reflexivity|]).
  destruct n as [|n]; [intros H; vm_compute in H; discriminate|].
  do 127 (destruct n as [|n]; [reflexivity|]).
  destruct n as [|n]; [intros H; vm_compute in H; discriminate|].
  intros _. reflexivity.
Qed.

Lemma span_all (p : ascii -> bool) (s : string) :
  all p s = true -> span p s = (s, "").
Proof.
  induction s as [|c s IH]; [reflexivity|]. cbn [all span].
  intros H. apply andb_true_iff in H as [Hc Hs]. rewrite Hc, IH by exact Hs.
  reflexivity.
Qed.

Lemma trimEnd_word (s : string) : all isWord s = true -> trimEnd s = s.
Proof.
  induction s as [|c s IH]; [reflexivity|]. cbn [all trimEnd].
  intros H. apply andb_true_iff in H as [Hc Hs].
  rewrite IH by exact Hs. rewrite (word_not_space c Hc), andb_false_r.
  reflexivity.
Qed.

Lemma trim_identifier (y : string) : isIdentifier y = true -> trim y = y.
Proof.
  destruct y as [|c y]; [discriminate|]. cbn [isIdentifier].
  intros H. apply andb_true_iff in H as [_ H].
  unfold trim, trimStart. 
  assert (Hc : isSpace c = false).
  { cbn [all] in H. apply andb_true_iff in H as [Hc _]. apply word_not_space, Hc. }
  cbn [span]. rewrite Hc. cbn [snd]. apply trimEnd_word, H.
Qed.

Lemma evalExpression_unbound (h : list Environment.t) (env : nat)
  (y message : string) :
  isIdentifier y = true ->
  Environment.get h env y = Throw (Error message) ->
  evalExpression y h env
    = Throw (Error ("Variable or index error: " ++ y ++ " - " ++ message)).
Proof.
  intros Hy Hget. unfold evalExpression. rewrite (trim_identifier y Hy).
  destruct y as [|c y]; [discriminate|].
  cbn [isIdentifier] in Hy. apply andb_true_iff in Hy as [Hc Hw].
  cbn [String.length replaceRefs].
  unfold varIndexMatch, one. rewrite Hc, (span_all _ _ Hw).
  cbn [String.length indexGroups]. unfold resolve. rewrite Hget.
  cbn [rbind]. unfold matchText. cbn [map String.concat].
  rewrite append_nil_r. reflexivity.
Qed.

Lemma name_is_no_count (N : string) :
  all isWord N = true -> all isDigit N = false ->
  isCount (trimStart N) = false /\ startsWith "=" (trimStart N) = false.
Proof.
  intros Hword Hdigit. destruct N as [|c N]; [discriminate|].
  cbn [all] in Hword. apply andb_true_iff in Hword as [Hc _].
  assert (Htrim : trimStart (String c N) = String c N).
  { unfold trimStart. cbn [span]. rewrite (word_not_space c Hc). reflexivity. }
  rewrite Htrim. split.
  - unfold isCount. rewrite Hdigit. reflexivity.
  - unfold startsWith. cbn [stripPrefix].
    destruct (Ascii.eqb_spec "=" c) as [<-|]; [discriminate | reflexivity].
Qed.

(** ** The scan for the end of a block *)

Lemma scanFrom_ge (rest : list string) :
  forall k, k <= scanFrom rest k.
Proof.
  induction rest as [|l rest IH]; intros k; cbn [scanFrom]; [lia|].
  destruct (startsWith "    " l); [|lia]. specialize (IH (S k)). lia.
Qed.

Lemma scanFrom_spec (rest : list string) :
  forall k d,
    k + d < scanFrom rest k <->
    (forall j, j <= d ->
       exists l, rest !! j = Some l /\ startsWith "    " l = true).
Proof.
  induction rest as [|l rest IH]; intros k d; cbn [scanFrom].
  - split; [lia|]. intros H. destruct (H 0) as [l [Hl _]]; [lia|]. discriminate.
  - destruct (startsWith "    " l) eqn:Hl.
    + destruct d as [|d].
      * split.
        -- intros _ j Hj. assert (j = 0) as -> by lia. eauto.
        -- intros _. pose proof (scanFrom_ge rest (S k)). lia.
      * replace (k + S d) with (S k + d) by lia. rewrite IH. split.
        -- intros H [|j] Hj; [eauto|]. apply (H j). lia.
        -- intros H j Hj. apply (H (S j)). lia.
    + split; [lia|]. intros H. destruct (H 0) as [l' [Hl' Hs]]; [lia|].
      injection Hl' as ->. congruence.
Qed.

Lemma scanBlock_spec (lines : list string) (blockStart d : nat) :
  blockStart + d < scanBlock lines blockStart <->
  (forall j, j <= d ->
     exists l, lines !! (blockStart + j) = Some l
               /\ startsWith "    " l = true).
Proof.
  unfold scanBlock. rewrite scanFrom_spec.
  split; intros H j Hj; destruct (H j Hj) as [l [Hl Hs]]; exists l;
    (split; [|exact Hs]); rewrite lookup_drop in *; exact Hl.
Qed.

Lemma startsWith_indent (l : string) :
  startsWith "    " l = (4 <=? indentOf l)%nat.
Proof.
  unfold startsWith, indentOf.
  do 4 (destruct l as [|? l]; [reflexivity|];
        cbn [stripPrefix span];
        destruct (Ascii.eqb " " _); [|reflexivity]).
  destruct (span (Ascii.eqb " ") l). reflexivity.
Qed.

(** ** Scopes *)


Lemma withHeap_twice (h h' : list Environment.t) (rt : Runtime) :
  withHeap h (withHeap h' rt) = withHeap h rt.
Proof. reflexivity. Qed.






Lemma has_inherited_false {A : Type} (name : string) (o : gmap string A) :
  Obj.has name o = false -> Obj.inherited name = false.
Proof. unfold Obj.has. destruct (o !! name); [discriminate | auto]. Qed.

Lemma has_false {A : Type} (name : string) (o : gmap string A) :
  o !! name = None -> Obj.inherited name = false -> Obj.has name o = false.
Proof. intros H1 H2. unfold Obj.has. rewrite H1. exact H2. Qed.



(** ** Scenarios of the specification that the code reproduces *)

Example say_variable (fuel : nat) :
  run (3 + fuel) sayProgram = Result (Output ["5"]).
Proof. vm_compute. reflexivity. Qed.

Example repeat_three_times (fuel : nat) :
  run (5 + fuel) repeatProgram = Result (Output ["hi"; "hi"; "hi"]).
Proof. vm_compute. reflexivity. Qed.

(** ** The conditional *)

(** C1 (the code departs from the claim).  The claim: of an if-block and
    its else-block exactly one is executed, and the program
    [let x = 10 / if x > 5: say "big" / else: say "small"] prints ["big"].
    The code: the handler of [else:] runs its block whatever the
    condition was, so on this program, whose condition is true, both
    blocks run and the output is ["big"; "small"]. *)
Theorem if_else_runs_both_blocks (fuel : nat) :
  run (6 + fuel) ifElseProgram = Result (Output ["big"; "small"]).
Proof. vm_compute. reflexivity. Qed.

(** ** Literals in expressions *)

(** C2 (the code departs from the claim).  The claim: a single literal
    evaluates on a fast path with no name lookup on its text.  The code:
    evalExpression never calls parseValue; it looks up every identifier-like
    run of the text, inside quotes too.  The string "hello", the token true
    and the number 1e3 fail with the lookup error of hello, true and e3;
    with hello bound to 5 the string "hello" evaluates to "5"; a literal
    without letters, such as 10, evaluates as claimed; parseValue, which
    no statement uses, gives the claimed values; and the declaration
    [let s = "hello"] aborts the run. *)
Theorem literal_text_is_looked_up :
  evalExpression (quote "hello") rootHeap 0
    = Throw (Error ("Variable or index error: hello - Variable "
                    ++ quote "hello" ++ " not found"))
  /\ evalExpression "true" rootHeap 0
    = Throw (Error ("Variable or index error: true - Variable "
                    ++ quote "true" ++ " not found"))
  /\ evalExpression "1e3" rootHeap 0
    = Throw (Error ("Variable or index error: e3 - Variable "
                    ++ quote "e3" ++ " not found"))
  /\ evalExpression (quote "hello")
       [Environment.declareVar "hello" (VNum 5) (Environment.new None)] 0
    = Ok (VStr "5")
  /\ evalExpression "10" rootHeap 0 = Ok (VNum 10)
  /\ parseValue (quote "hello") reset = Ok (VStr "hello")
  /\ parseValue "true" reset = Ok (VBool true)
  /\ forall fuel, run (1 + fuel) ["let s = " ++ quote "hello"]
    = Exception (Error ("Variable or index error: hello - Variable "
                        ++ quote "hello" ++ " not found")).
Proof. repeat split; intros; vm_compute; reflexivity. Qed.

(** ** Assignment *)

(** C3 (the code departs from the claim).  The claim: an assignment to a
    var of an ancestor scope changes the binding in that scope.  The code:
    the guard of the assignment statement asks isDeclared, which looks at
    the current scope only, before Environment.set can walk the chain.  In
    [let x = 1 / if 1 < 2: x = 2 / say x] the assignment inside the block
    aborts the run with "not declared", although Environment.set on the
    same heap would have changed the root's [x]. *)
Theorem assignment_to_ancestor_var_fails :
  (forall fuel,
     run (4 + fuel) assignInBlockProgram
       = Exception (Error ("Variable " ++ quote "x" ++ " not declared")))
  /\ Environment.set
       [Environment.declareVar "x" (VNum 1) (Environment.new None);
        Environment.new (Some 0)] 1 "x" (VNum 2)
     = Ok [Environment.declareVar "x" (VNum 2) (Environment.new None);
           Environment.new (Some 0)].
Proof. split; intros; vm_compute; reflexivity. Qed.

(** C8.  In the root scope, [set PI = 3] followed by [PI = 4] raises the
    "not declared" error, not an error about constants: the guard of the
    assignment passes, because the root scope declares PI, and
    Environment.set throws "not declared".  In a scope without a parent the
    outcome of set depends on the vars alone, whatever the consts hold: a
    name that is not among the vars is reported as not declared. *)
Theorem const_reassignment_reports_not_declared :
  (forall fuel,
     run (2 + fuel) constProgram
       = Exception (Error ("Variable " ++ quote "PI" ++ " not declared")))
  /\ (let root := Environment.declareConst "PI" (VNum 3) (Environment.new None) in
      Environment.isDeclared "PI" root = true
      /\ forall v, Environment.set [root] 0 "PI" v
           = Throw (Error ("Variable " ++ quote "PI" ++ " not declared")))
  /\ (forall (vs cs : gmap string value) (name : string) (v : value),
        Environment.set [Environment.mk vs cs None] 0 name v
        = if Obj.has name vs
          then Ok [Environment.mk (Obj.write name v vs) cs None]
          else Throw (Error ("Variable " ++ dq ++ name ++ dq ++ " not declared"))).
Proof.
  split; [intros; vm_compute; reflexivity|]. split.
  - cbv zeta. split; intros; vm_compute; reflexivity.
  - intros vs cs name v. unfold Environment.set. cbn.
    destruct (Obj.has name vs); reflexivity.
Qed.

(** ** Call statements *)

(** C4 (the code departs from the claim).  The claim: after a call whose
    body ends without a return, the enclosing block goes on with the next
    statement and keeps the output gathered before the call.  The code: the
    call handler returns from the enclosing interpretBlock, and what it
    returns is the [output] property of an array, that is undefined.  In
    [function greet(): say "in" / say "before" / greet() / say "after"] the
    run gives undefined: "before" is lost and "after" is never reached. *)
Theorem completed_call_ends_the_block (fuel : nat) :
  run (6 + fuel) callThenSayProgram = Result (Value VUndefined).
Proof. vm_compute. reflexivity. Qed.

(** C5 (the code departs from the claim).  The claim: the run of
    [function add(a, b): return a + b / add(2, 3)] produces an empty output
    sequence.  The code: the call does unwind with the value 5, but the
    handler returns that value from the enclosing top-level block, so the
    run gives the number 5 and no output sequence at all. *)
Theorem add_call_result_replaces_output (fuel : nat) :
  run (4 + fuel) addProgram = Result (Value (VNum 5)).
Proof. vm_compute. reflexivity. Qed.

(** ** Nested blocks *)

(** C6, the claim as stated fails, for each of the five constructs.  In
    [repeat 1: / if 1 > 2: / say "a" / say "b"] (the if at one unit, "a" at
    two, "b" at one) the line [say "b"] is at the depth of the nested
    header, yet it lies in the nested body, whose lines are therefore not
    all deeper than the header; the condition being false, "b" is never
    printed.  With a true condition, or under [else:], the line at the
    header's depth runs in the scope of the nested body, where it sees the
    var that body declared; under a nested [repeat 2:] it runs once per
    iteration; under a nested [while] whose condition is false it does not
    run; under a nested function header it is recorded as part of the
    function and does not run. *)
Lemma nested_body_counterexample :
  ~ claimedNestedBody nestedProgram 1
  /\ run 5 nestedProgram = Result (Output [])
  /\ run 5 nestedProgram <> Result (Output ["b"])
  /\ run 6 nestedIfProgram = Result (Output ["1"])
  /\ run 6 nestedIfProgram <> Result (Output [xNotFound])
  /\ run 6 nestedElseProgram = Result (Output ["1"])
  /\ run 6 nestedElseProgram <> Result (Output [xNotFound])
  /\ run 6 nestedRepeatProgram = Result (Output ["a"; "b"; "a"; "b"])
  /\ run 6 nestedRepeatProgram <> Result (Output ["a"; "a"; "b"])
  /\ run 6 nestedWhileProgram = Result (Output [])
  /\ run 6 nestedWhileProgram <> Result (Output ["b"])
  /\ run 6 nestedFunctionProgram = Result (Output [])
  /\ run 6 nestedFunctionProgram <> Result (Output ["b"]).
Proof.
  split.
  { intros H.
    specialize (H ("    if 1 > 2:") 3 ("    say " ++ quote "b")
                  eq_refl eq_refl).
    vm_compute in H.
    assert (Hlt : (1 < 3 < 4)%nat) by lia. specialize (H Hlt).
    lia. }
  repeat split; try (vm_compute; reflexivity); vm_compute; discriminate.
Qed.

(** C6, amended.  The body of a block-introducing construct, nested or
    not, is the longest run of lines after its header, in the array being
    interpreted, that begin with four spaces, whatever the indentation of
    the header: line [i + 1 + d] is in the body of the header at [i] exactly
    when it and every line between begin with four spaces.  So inside an
    indented body a later line at the nested header's own depth belongs to
    the nested body when the lines between are indented, and the outer block
    resumes at the end of that run: for an [if] whose condition is false, at
    once and with nothing changed.  This holds for each of the five
    constructs, at every position, scope and session: what [if], [else],
    [repeat] and [while] run, in a scope created under the current one, is
    the range of lines from the header to the end of that run; what a
    function header records is a copy of that range; and each of them puts
    the enclosing block back at the end of the run. *)
Theorem nested_body_is_the_four_space_run (lines : list string) (i : nat) :
  let blockEnd := scanBlock lines (i + 1) in
  (forall d,
     (i + 1 + d < blockEnd)%nat <->
     (forall j, (j <= d)%nat ->
        exists l, lines !! (i + 1 + j)%nat = Some l
                  /\ startsWith "    " l = true))
  /\ (forall h k l,
        lines !! i = Some h -> startsWith "    " h = true ->
        (i < k)%nat -> lines !! k = Some l -> indentOf l = indentOf h ->
        (forall j, (i < j < k)%nat ->
           exists l', lines !! j = Some l' /\ startsWith "    " l' = true) ->
        (k < blockEnd)%nat)
  /\ (forall fuel end_ env output rt raw condExpr v,
        (i < end_)%nat -> lines !! i = Some raw ->
        classify (trim raw) = SIf condExpr ->
        evalExpression condExpr (heap rt) env = Ok v ->
        truthy v = false ->
        interpretLoop (S fuel) lines i end_ env output rt
          = interpretLoop fuel lines blockEnd end_ env output rt)
  /\ (forall fuel end_ env output rt raw,
        (i < end_)%nat -> lines !! i = Some raw ->
        let body : M blockValue :=
          do child <- newEnvironment (Some env);
          interpretBlock fuel lines (i + 1) blockEnd child in
        let resume := interpretLoop fuel lines blockEnd end_ env in
        match classify (trim raw) with
        | SIf condExpr =>
            interpretLoop (S fuel) lines i end_ env output rt
            = (do condResult <- eval condExpr env;
               if truthy condResult
               then do blockOutput <- body;
                    do output' <- pushAll output blockOutput;
                    resume output'
               else resume output) rt
        | SElse =>
            interpretLoop (S fuel) lines i end_ env output rt
            = (do blockOutput <- body;
               do output' <- pushAll output blockOutput;
               resume output') rt
        | SRepeat digits =>
            exact (parseDigits digits) = true ->
            interpretLoop (S fuel) lines i end_ env output rt
            = (do output' <- forLoop body (Z.to_nat (parseDigits digits))
                               output;
               resume output') rt
        | SWhile condExpr =>
            interpretLoop (S fuel) lines i end_ env output rt
            = (do output' <- whileLoop fuel (eval condExpr env) body output;
               resume output') rt
        | SFunction funcName paramsStr =>
            funcName <> "__proto__" ->
            interpretLoop (S fuel) lines i end_ env output rt
            = resume output
                (withFunction funcName
                   {| params := splitList paramsStr;
                      bodyStart := i + 1;
                      bodyEnd := blockEnd;
                      bodyLines := slice lines (i + 1) blockEnd |} rt)
        | _ => True
        end).
Proof.
  cbv zeta. split; [|split; [|split]].
  - intros d. apply scanBlock_spec.
  - intros h k l Hh Hind Hik Hl Hsame Hbetween.
    replace k with (i + 1 + (k - (i + 1)))%nat by lia.
    apply scanBlock_spec. intros j Hj.
    destruct (decide (i + 1 + j = k)%nat) as [<-|Hne].
    + exists l. split; [exact Hl|].
      rewrite startsWith_indent, Hsame, <- startsWith_indent. exact Hind.
    + apply Hbetween. lia.
  - intros fuel end_ env output rt raw condExpr v Hi Hraw Hclass Heval Hv.
    cbn [interpretLoop]. apply Nat.ltb_lt in Hi. rewrite Hi, Hraw, Hclass.
    cbn [negb]. unfold bind at 1. unfold eval, lift. rewrite Heval, Hv.
    reflexivity.
  - intros fuel end_ env output rt raw Hi Hraw. apply Nat.ltb_lt in Hi.
    destruct (classify (trim raw)) eqn:Hclass; try exact I.
    + cbn [interpretLoop]. rewrite Hi, Hraw, Hclass. reflexivity.
    + cbn [interpretLoop]. rewrite Hi, Hraw, Hclass. reflexivity.
    + intros Hexact. cbn [interpretLoop]. rewrite Hi, Hraw, Hclass, Hexact.
      reflexivity.
    + cbn [interpretLoop]. rewrite Hi, Hraw, Hclass. reflexivity.
    + intros Hne. apply String.eqb_neq in Hne.
      cbn [interpretLoop]. rewrite Hi, Hraw, Hclass, Hne. reflexivity.
Qed.

(** The theorem at [nestedProgram]: line 3, at the depth of the [if] of
    line 1, is inside the body of that [if]; and at the nested headers of
    [nestedWhileProgram] and [nestedFunctionProgram], met in a block scope:
    the [while], its condition false, puts the block back after line 3, and
    the function header records lines 2 and 3 and does the same. *)
Lemma nested_body_witness :
  (3 < scanBlock nestedProgram 2)%nat
  /\ interpretLoop 3 nestedWhileProgram 1 4 1 [] callerSession
     = Returned (Output []) callerSession
  /\ interpretLoop 2 nestedFunctionProgram 1 4 1 [] callerSession
     = Returned (Output [])
         (withFunction "f"
            {| params := []; bodyStart := 2; bodyEnd := 4;
               bodyLines := ["        say " ++ quote "a";
                             "    say " ++ quote "b"] |}
            callerSession).
Proof.
  split; [|split].
  - apply (proj1 (proj2 (nested_body_is_the_four_space_run nestedProgram 1))
             ("    if 1 > 2:") 3 ("    say " ++ quote "b")).
    + reflexivity.
    + reflexivity.
    + lia.
    + reflexivity.
    + reflexivity.
    + intros j Hj. assert (j = 2)%nat as -> by lia. eexists.
      split; reflexivity.
  - exact (proj2 (proj2 (proj2
             (nested_body_is_the_four_space_run nestedWhileProgram 1)))
             2 4 1 [] callerSession "    while 1 > 2:" ltac:(lia) eq_refl).
  - exact (proj2 (proj2 (proj2
             (nested_body_is_the_four_space_run nestedFunctionProgram 1)))
             1 4 1 [] callerSession "    function f():" ltac:(lia) eq_refl
             ltac:(discriminate)).
Defined.

(** ** return *)

(** C7, the claim as stated fails.  The run of the one-line program
    [return 5] ends with the return-unwind signal carrying 5, thrown out of
    the top-level block; it does not end with an error "return used outside
    a function body". *)
Lemma return_outside_call_counterexample :
  run 1 ["return 5"] = Exception (ReturnSignal (VNum 5))
  /\ run 1 ["return 5"]
     <> Exception (Error "return used outside a function body").
Proof. split; [vm_compute; reflexivity | vm_compute; discriminate]. Qed.

(** C7, amended.  Executing a [return EXPR] statement, in any block and any
    scope, throws the return-unwind signal carrying the value of EXPR and
    leaves the session as it was; outside any call nothing catches it, so a
    program whose first line is such a statement ends with that very
    signal, the one a call statement would catch, and with no error. *)
Theorem return_outside_call_throws_the_signal (fuel : nat)
  (lines : list string) (i end_ env : nat) (output : list string)
  (rt : Runtime) (raw expr : string) (v : value) :
  (i < end_)%nat ->
  lines !! i = Some raw ->
  classify (trim raw) = SReturn expr ->
  evalExpression expr (heap rt) env = Ok v ->
  interpretLoop (S fuel) lines i end_ env output rt
    = Threw (ReturnSignal v) rt
  /\ (i = 0%nat -> end_ = length lines -> env = globalEnv reset ->
      rt = reset -> run (S fuel) lines = Exception (ReturnSignal v)).
Proof.
  intros Hi Hraw Hclass Heval.
  assert (Hstep : interpretLoop (S fuel) lines i end_ env output rt
                  = Threw (ReturnSignal v) rt).
  { cbn [interpretLoop]. apply Nat.ltb_lt in Hi. rewrite Hi, Hraw, Hclass.
    cbn [negb]. unfold bind, eval, lift. rewrite Heval. reflexivity. }
  split; [exact Hstep|].
  intros -> -> -> ->. unfold run, interpret, interpretBlock.
  destruct output as [|o output].
  - rewrite Hstep. reflexivity.
  - cbn [interpretLoop] in *. apply Nat.ltb_lt in Hi. rewrite Hi, Hraw, Hclass in *.
    cbn [negb]. unfold bind, eval, lift. rewrite Heval. reflexivity.
Qed.

(** The theorem at the one-line program [return 5]. *)
Lemma return_outside_call_witness :
  run 1 ["return 5"] = Exception (ReturnSignal (VNum 5)).
Proof.
  apply (proj2 (return_outside_call_throws_the_signal
                  0 ["return 5"] 0 1 0 [] reset "return 5" "5" (VNum 5)
                  ltac:(lia) eq_refl eq_refl eq_refl));
    reflexivity.
Defined.

(** ** The scope of a call *)



(** ** repeat *)

(** C10.  The count of a repeat statement is a literal run of digits.  A
    line that reads [repeat N:] once trimmed, whose N is not a digit run
    and does not begin with [=], matches no statement form and fails as an
    unknown statement; a variable name is such an N.  The line [repeat 0:]
    is accepted: its body is executed zero times and the block goes on
    after the body, with the output and the session unchanged. *)
Theorem repeat_count_is_a_digit_run (fuel : nat) (lines : list string)
  (i end_ env : nat) (output : list string) (rt : Runtime) (raw N : string) :
  (i < end_)%nat ->
  lines !! i = Some raw ->
  trim raw = repeatLine N ->
  (isCount (trimStart N) = false -> startsWith "=" (trimStart N) = false ->
   interpretLoop (S fuel) lines i end_ env output rt
     = Threw (Error ("Unknown or unsupported statement: " ++ repeatLine N)) rt)
  /\ (all isWord N = true -> all isDigit N = false ->
      interpretLoop (S fuel) lines i end_ env output rt
        = Threw (Error ("Unknown or unsupported statement: " ++ repeatLine N)) rt)
  /\ (N = "0" ->
      interpretLoop (S fuel) lines i end_ env output rt
        = interpretLoop fuel lines (scanBlock lines (i + 1)) end_ env output rt).
Proof.
  intros Hi Hline Htrim. apply Nat.ltb_lt in Hi.
  assert (Hgeneral :
    isCount (trimStart N) = false -> startsWith "=" (trimStart N) = false ->
    interpretLoop (S fuel) lines i end_ env output rt
      = Threw (Error ("Unknown or unsupported statement: " ++ repeatLine N)) rt).
  { intros Hcount Heq. cbn [interpretLoop].
    rewrite Hi, Hline, Htrim, (classify_repeatLine N Hcount Heq).
    reflexivity. }
  split; [exact Hgeneral|split].
  - intros Hword Hdigit. destruct (name_is_no_count N Hword Hdigit) as [H1 H2].
    apply Hgeneral; assumption.
  - intros ->. cbn [interpretLoop]. rewrite Hi, Hline, Htrim.
    change (classify (repeatLine "0")) with (SRepeat "0").
    reflexivity.
Qed.

(** The theorem at an indented [repeat n:] and at [repeat 0:]. *)
Lemma repeat_count_witness :
  run 1 ["  repeat n:"; "    say 'x'"]
    = Exception (Error "Unknown or unsupported statement: repeat n:")
  /\ run 2 ["repeat 0:"; "    say 'x'"] = Result (Output []).
Proof.
  split.
  - exact (f_equal observe
             (proj1 (proj2 (repeat_count_is_a_digit_run
                0 ["  repeat n:"; "    say 'x'"] 0 2 0 [] reset
                "  repeat n:" "n" ltac:(lia) eq_refl eq_refl))
                eq_refl eq_refl)).
  - refine (eq_trans (f_equal observe
             (proj2 (proj2 (repeat_count_is_a_digit_run
                1 ["repeat 0:"; "    say 'x'"] 0 2 0 [] reset
                "repeat 0:" "0" ltac:(lia) eq_refl eq_refl)) eq_refl)) _).
    vm_compute. reflexivity.
Defined.

(** * Further properties *)

(** ** The scope chain *)





Lemma getFrom_fuel (h : list Environment.t) (name : string) :
  ordered h ->
  forall fuel fuel' a,
    (a < fuel)%nat -> (a < fuel')%nat ->
    Environment.getFrom fuel h a name = Environment.getFrom fuel' h a name.
Proof.
  intros Hord. induction fuel as [|fuel IH]; intros fuel' a Ha Ha'; [lia|].
  destruct fuel' as [|fuel']; [lia|]. cbn [Environment.getFrom].
  destruct (h !! a) as [e|] eqn:He; [|reflexivity].
  destruct (Obj.has name (Environment.vars e)); [reflexivity|].
  destruct (Obj.has name (Environment.consts e)); [reflexivity|].
  destruct (Environment.parent e) as [p|] eqn:Hp; [|reflexivity].
  pose proof (Hord a e p He Hp). apply IH; lia.
Qed.

Lemma setFrom_fuel (h : list Environment.t) (name : string) (v : value) :
  ordered h ->
  forall fuel fuel' a,
    (a < fuel)%nat -> (a < fuel')%nat ->
    Environment.setFrom fuel h a name v = Environment.setFrom fuel' h a name v.
Proof.
  intros Hord. induction fuel as [|fuel IH]; intros fuel' a Ha Ha'; [lia|].
  destruct fuel' as [|fuel']; [lia|]. cbn [Environment.setFrom].
  destruct (h !! a) as [e|] eqn:He; [|reflexivity].
  destruct (Obj.has name (Environment.vars e)); [reflexivity|].
  destruct (Environment.parent e) as [p|] eqn:Hp; [|reflexivity].
  pose proof (Hord a e p He Hp). apply IH; lia.
Qed.

Lemma get_step (h : list Environment.t) (a : nat) (e : Environment.t)
  (name : string) :
  ordered h -> h !! a = Some e ->
  Environment.get h a name
  = if Obj.has name (Environment.vars e)
    then Ok (Obj.read name (Environment.vars e))
    else if Obj.has name (Environment.consts e)
    then Ok (Obj.read name (Environment.consts e))
    else match Environment.parent e with
         | Some p => Environment.get h p name
         | None => Throw (Error ("Variable " ++ dq ++ name ++ dq ++ " not found"))
         end.
Proof.
  intros Hord He. unfold Environment.get at 1.
  pose proof (lookup_lt_Some _ _ _ He) as Hlt.
  destruct (length h) as [|n] eqn:Hn; [lia|].
  cbn [Environment.getFrom]. rewrite He.
  destruct (Obj.has name (Environment.vars e)); [reflexivity|].
  destruct (Obj.has name (Environment.consts e)); [reflexivity|].
  destruct (Environment.parent e) as [p|] eqn:Hp; [|reflexivity].
  pose proof (Hord a e p He Hp). unfold Environment.get.
  apply getFrom_fuel; [exact Hord|lia|lia].
Qed.

Lemma set_step (h : list Environment.t) (a : nat) (e : Environment.t)
  (name : string) (v : value) :
  ordered h -> h !! a = Some e ->
  Environment.set h a name v
  = if Obj.has name (Environment.vars e)
    then Ok (<[a := Environment.declareVar name v e]> h)
    else match Environment.parent e with
         | Some p => Environment.set h p name v
         | None => Throw (Error ("Variable " ++ dq ++ name ++ dq ++ " not declared"))
         end.
Proof.
  intros Hord He. unfold Environment.set at 1.
  pose proof (lookup_lt_Some _ _ _ He) as Hlt.
  destruct (length h) as [|n] eqn:Hn; [lia|].
  cbn [Environment.setFrom]. rewrite He.
  destruct (Obj.has name (Environment.vars e)); [reflexivity|].
  destruct (Environment.parent e) as [p|] eqn:Hp; [|reflexivity].
  pose proof (Hord a e p He Hp). unfold Environment.set.
  apply setFrom_fuel; [exact Hord|lia|lia].
Qed.



Lemma setFrom_frame (name : string) (v : value) :
  forall fuel (h h' : list Environment.t) a,
    Environment.setFrom fuel h a name v = Ok h' ->
    length h' = length h
    /\ forall b eb, h !! b = Some eb ->
         exists eb', h' !! b = Some eb'
           /\ Environment.parent eb' = Environment.parent eb
           /\ Environment.consts eb' = Environment.consts eb.
Proof.
  induction fuel as [|fuel IH]; intros h h' a H; [discriminate|].
  cbn [Environment.setFrom] in H.
  destruct (h !! a) as [e|] eqn:He; [|discriminate].
  destruct (Obj.has name (Environment.vars e)).
  - injection H as <-. split; [apply length_insert|].
    intros b eb Hb. destruct (decide (a = b)) as [->|Hne].
    + rewrite He in Hb. injection Hb as <-.
      exists (Environment.declareVar name v e). split; [|split; reflexivity].
      apply list_lookup_insert_eq. eapply lookup_lt_Some, He.
    + exists eb. rewrite list_lookup_insert_ne by exact Hne. auto.
  - destruct (Environment.parent e) as [p|]; [|discriminate].
    apply (IH h h' p H).
Qed.

(** ** Sessions only grow *)







Section Sound.
Context {A B : Type}.








Lemma sound_le (n n' : nat) (m : M A) :
  sound n m -> (n <= n')%nat -> sound n' m.
Proof. intros Hm Hle rt Hg Hn. apply Hm; [exact Hg | lia]. Qed.

End Sound.

















(** a constant that no var hides is what a lookup from its scope finds *)
Lemma get_const (h : list Environment.t) (a : nat) (e : Environment.t)
  (x : string) (v : value) :
  h !! a = Some e ->
  Environment.consts e !! x = Some v ->
  Obj.has x (Environment.vars e) = false ->
  Environment.get h a x = Ok v.
Proof.
  intros He Hx Hfree. unfold Environment.get.
  pose proof (lookup_lt_Some _ _ _ He) as Hlt.
  destruct (length h) as [|n]; [lia|].
  cbn [Environment.getFrom]. rewrite He, Hfree.
  unfold Obj.has, Obj.read. rewrite Hx. reflexivity.
Qed.

Lemma get_var (h : list Environment.t) (a : nat) (e : Environment.t)
  (x : string) (v : value) :
  h !! a = Some e ->
  Environment.vars e !! x = Some v ->
  Environment.get h a x = Ok v.
Proof.
  intros He Hx. unfold Environment.get.
  pose proof (lookup_lt_Some _ _ _ He) as Hlt.
  destruct (length h) as [|n]; [lia|].
  cbn [Environment.getFrom]. rewrite He.
  unfold Obj.has, Obj.read. rewrite Hx. reflexivity.
Qed.

Lemma write_same (name : string) (v : value) (o : gmap string value) :
  name <> "__proto__" -> Obj.write name v o !! name = Some v.
Proof.
  intros Hne. unfold Obj.write. apply String.eqb_neq in Hne. rewrite Hne.
  apply lookup_insert_eq.
Qed.

Lemma inherited_proto : Obj.inherited "__proto__" = true.
Proof. reflexivity. Qed.

Lemma not_inherited_not_proto (name : string) :
  Obj.inherited name = false -> name <> "__proto__".
Proof. intros H ->. rewrite inherited_proto in H. discriminate. Qed.



Lemma ordered_scopedSession : ordered (heap scopedSession).
Proof.
  intros a e p Ha Hp. destruct a as [|[|a]]; [| |discriminate Ha].
  - injection Ha as <-. discriminate Hp.
  - injection Ha as <-. injection Hp as <-. lia.
Qed.





Lemma chainFrom_fuel (h : list Environment.t) :
  ordered h ->
  forall fuel fuel' a,
    (a < fuel)%nat -> (a < fuel')%nat ->
    chainFrom fuel h a = chainFrom fuel' h a.
Proof.
  intros Hord. induction fuel as [|fuel IH]; intros fuel' a Ha Ha'; [lia|].
  destruct fuel' as [|fuel']; [lia|]. cbn [chainFrom].
  destruct (h !! a) as [e|] eqn:He; [|reflexivity].
  destruct (Environment.parent e) as [p|] eqn:Hp; [|reflexivity].
  pose proof (Hord a e p He Hp). f_equal. apply IH; lia.
Qed.

Lemma chain_step (h : list Environment.t) (a : nat) (e : Environment.t) :
  ordered h -> h !! a = Some e ->
  chain h a
  = e :: match Environment.parent e with
         | Some p => chain h p
         | None => []
         end.
Proof.
  intros Hord He. unfold chain at 1.
  pose proof (lookup_lt_Some _ _ _ He) as Hlt.
  destruct (length h) as [|n] eqn:Hlen; [lia|].
  cbn [chainFrom]. rewrite He.
  destruct (Environment.parent e) as [p|] eqn:Hp; [|reflexivity].
  pose proof (Hord a e p He Hp). f_equal. unfold chain.
  apply (chainFrom_fuel h Hord); lia.
Qed.

Lemma chain_linked (h : list Environment.t) :
  ordered h ->
  forall a e, h !! a = Some e -> linked h (chain h a).
Proof.
  intros Hord a. induction a as [a IH] using lt_wf_ind. intros e He.
  rewrite (chain_step h a e Hord He).
  destruct (Environment.parent e) as [p|] eqn:Hp.
  - pose proof (Hord a e p He Hp) as Hlt.
    destruct (lookup_lt_is_Some_2 h p) as [ep Hep];
      [apply lookup_lt_Some in He; lia|].
    pose proof (IH p Hlt ep Hep) as Hrec.
    rewrite (chain_step h p ep Hord Hep) in *.
    cbn [linked]. split; [|exact Hrec]. exists p. rewrite Hp. auto.
  - cbn [linked]. rewrite Hp. auto.
Qed.

Lemma get_chain (h : list Environment.t) (name : string) :
  ordered h ->
  forall a e, h !! a = Some e ->
    Environment.get h a name
    = match List.find (Environment.isDeclared name) (chain h a) with
      | Some d => Ok (ownValue name d)
      | None => Throw (Error ("Variable " ++ dq ++ name ++ dq ++ " not found"))
      end.
Proof.
  intros Hord a. induction a as [a IH] using lt_wf_ind. intros e He.
  rewrite (get_step h a e name Hord He), (chain_step h a e Hord He).
  cbn [List.find]. unfold Environment.isDeclared at 1, ownValue.
  destruct (Obj.has name (Environment.vars e)) eqn:Hv;
    [cbn [orb]; rewrite Hv; reflexivity|].
  destruct (Obj.has name (Environment.consts e)) eqn:Hc;
    [cbn [orb]; rewrite Hv; reflexivity|].
  cbn [orb]. destruct (Environment.parent e) as [p|] eqn:Hp; [|reflexivity].
  pose proof (Hord a e p He Hp) as Hlt.
  destruct (lookup_lt_is_Some_2 h p) as [ep Hep];
    [apply lookup_lt_Some in He; lia|].
  apply (IH p Hlt ep Hep).
Qed.

(** X4.  Environment.get finds the nearest declaration along the
    whole chain of parents.  In a heap whose parents are older than their
    children, the scopes from a scope up through its parents form a chain
    that starts at the scope, in which each scope is followed by its parent
    and the last has none; get gives what the first scope of that chain
    that declares the name holds under it (its var, or without one its
    constant), whatever scopes further up declare, and the [not found]
    error when no scope of the chain declares the name. *)
Theorem lookup_finds_the_nearest_scope (h : list Environment.t) (a : nat)
  (e : Environment.t) (name : string) :
  ordered h -> h !! a = Some e ->
  head (chain h a) = Some e
  /\ linked h (chain h a)
  /\ Environment.get h a name
     = match List.find (Environment.isDeclared name) (chain h a) with
       | Some d => Ok (ownValue name d)
       | None =>
           Throw (Error ("Variable " ++ dq ++ name ++ dq ++ " not found"))
       end
  /\ (forall pre d post,
        chain h a = (pre ++ d :: post)%list ->
        Forall (fun c => Environment.isDeclared name c = false) pre ->
        Environment.isDeclared name d = true ->
        Environment.get h a name = Ok (ownValue name d)).
Proof.
  intros Hord He. split; [|split; [|split]].
  - rewrite (chain_step h a e Hord He). reflexivity.
  - apply (chain_linked h Hord a e He).
  - apply (get_chain h name Hord a e He).
  - intros pre d post Hsplit Hpre Hd.
    rewrite (get_chain h name Hord a e He), Hsplit. clear Hsplit.
    induction Hpre as [|c pre Hc _ IH]; cbn [app List.find].
    + rewrite Hd. reflexivity.
    + rewrite Hc. exact IH.
Qed.

(** The theorem at the block scope of [scopedSession]: the chain, a name
    that only the global scope declares, and a name no scope declares. *)
Lemma lookup_finds_the_nearest_scope_witness :
  chain (heap scopedSession) 1 = [scopedBlock; scopedGlobal]
  /\ Environment.get (heap scopedSession) 1 "n" = Ok (VNum 1)
  /\ Environment.get (heap scopedSession) 1 "q"
     = Throw (Error ("Variable " ++ dq ++ "q" ++ dq ++ " not found")).
Proof.
  split; [reflexivity|]. split.
  - exact (proj2 (proj2 (proj2 (lookup_finds_the_nearest_scope
             (heap scopedSession) 1 scopedBlock "n"
             ordered_scopedSession eq_refl)))
             [scopedBlock] scopedGlobal [] eq_refl
             ltac:(repeat constructor) eq_refl).
  - exact (proj1 (proj2 (proj2 (lookup_finds_the_nearest_scope
             (heap scopedSession) 1 scopedBlock "q"
             ordered_scopedSession eq_refl)))).
Defined.

(** X5.  Environment.set writes the nearest var.  A name that is a
    var of the scope is overwritten there: the lookup then gives the new
    value and no other scope changes.  A name that is no var of the scope,
    a constant of it included, is passed to the parent, and fails with the
    [not declared] error at a scope without parent.  Whenever set succeeds
    the heap keeps its length and every scope its parent and constants. *)
Theorem set_changes_the_nearest_var (h : list Environment.t) (a : nat)
  (e : Environment.t) (name : string) (v : value) :
  ordered h -> h !! a = Some e ->
  (Obj.has name (Environment.vars e) = true -> name <> "__proto__" ->
   exists h',
     Environment.set h a name v = Ok h'
     /\ Environment.get h' a name = Ok v
     /\ length h' = length h
     /\ forall b, b <> a -> h' !! b = h !! b)
  /\ (Obj.has name (Environment.vars e) = false ->
      Environment.set h a name v
      = match Environment.parent e with
        | Some p => Environment.set h p name v
        | None => Throw (Error ("Variable " ++ dq ++ name ++ dq ++ " not declared"))
        end)
  /\ (forall h', Environment.set h a name v = Ok h' ->
        length h' = length h
        /\ forall b eb, h !! b = Some eb ->
             exists eb', h' !! b = Some eb'
               /\ Environment.parent eb' = Environment.parent eb
               /\ Environment.consts eb' = Environment.consts eb).
Proof.
  intros Hord He. split; [|split].
  - intros Hown Hne. exists (<[a := Environment.declareVar name v e]> h).
    rewrite (set_step h a e name v Hord He), Hown.
    split; [reflexivity|]. split; [|split].
    + eapply get_var.
      * apply list_lookup_insert_eq. eapply lookup_lt_Some, He.
      * cbn. apply write_same, Hne.
    + apply length_insert.
    + intros b Hb. apply list_lookup_insert_ne. congruence.
  - intros Hown. rewrite (set_step h a e name v Hord He), Hown. reflexivity.
  - intros h' Hset. apply (setFrom_frame _ _ _ _ _ _ Hset).
Qed.

(** The theorem at the var [n] of the global scope of [scopedSession], and
    at the constant [PI], which set does not find. *)
Lemma set_changes_the_nearest_var_witness :
  (exists h',
     Environment.set (heap scopedSession) 0 "n" (VNum 2) = Ok h'
     /\ Environment.get h' 0 "n" = Ok (VNum 2))
  /\ Environment.set (heap scopedSession) 0 "PI" (VNum 4)
     = Throw (Error ("Variable " ++ dq ++ "PI" ++ dq ++ " not declared")).
Proof.
  split.
  - destruct (proj1 (set_changes_the_nearest_var (heap scopedSession) 0
                       scopedGlobal "n" (VNum 2) ordered_scopedSession eq_refl)
                eq_refl ltac:(discriminate)) as (h' & H1 & H2 & _).
    exists h'. split; assumption.
  - exact (proj1 (proj2 (set_changes_the_nearest_var (heap scopedSession) 0
                           scopedGlobal "PI" (VNum 4) ordered_scopedSession
                           eq_refl)) eq_refl).
Defined.

(** ** Declarations *)

(** X6.  [let] and [set].  When the expression evaluates, a
    declaration of a name the current scope already holds, as a var or as a
    constant or as a member every object inherits, throws the
    [already declared] error and leaves the session as it was; otherwise
    the name reads back with the value from that scope, no other scope and
    no function changes, and the block goes on at the next line. *)
Theorem declaration_binds_or_fails (fuel : nat) (lines : list string)
  (i end_ env : nat) (output : list string) (rt : Runtime)
  (raw varName expr : string) (isConst : bool) (v : value) (e : Environment.t) :
  (i < end_)%nat ->
  lines !! i = Some raw ->
  classify (trim raw) = (if isConst then SSet varName expr
                         else SLet varName expr) ->
  evalExpression expr (heap rt) env = Ok v ->
  heap rt !! env = Some e ->
  if Environment.isDeclared varName e
  then interpretLoop (S fuel) lines i end_ env output rt
       = Threw (Error ("Variable " ++ quote varName ++ " already declared")) rt
  else exists rt',
       interpretLoop (S fuel) lines i end_ env output rt
       = interpretLoop fuel lines (i + 1) end_ env output rt'
       /\ Environment.get (heap rt') env varName = Ok v
       /\ length (heap rt') = length (heap rt)
       /\ (forall b, b <> env -> heap rt' !! b = heap rt !! b)
       /\ functions rt' = functions rt.
Proof.
  intros Hi Hraw Hclass Heval He. apply Nat.ltb_lt in Hi.
  assert (Hlt : (env < length (heap rt))%nat) by (eapply lookup_lt_Some, He).
  destruct (Environment.isDeclared varName e) eqn:Hdecl.
  - cbn [interpretLoop]. rewrite Hi, Hraw, Hclass.
    destruct isConst; cbn [negb]; unfold bind, eval, lift, isDeclared, onEnv;
      rewrite Heval, He, Hdecl; reflexivity.
  - pose proof Hdecl as Hd. unfold Environment.isDeclared in Hd.
    apply orb_false_iff in Hd as [Hv Hc].
    pose proof (not_inherited_not_proto _ (has_inherited_false _ _ Hv)) as Hne.
    destruct isConst.
    + exists (withHeap (<[env := Environment.declareConst varName v e]> (heap rt)) rt).
      split; [|split; [|split; [|split]]].
      * cbn [interpretLoop]. rewrite Hi, Hraw, Hclass. cbn [negb].
        unfold bind, eval, lift, isDeclared, onEnv, declareConst, updateEnv.
        rewrite Heval, He, Hdecl, He. reflexivity.
      * cbn [heap withHeap]. eapply get_const.
        -- apply list_lookup_insert_eq. exact Hlt.
        -- cbn. apply write_same, Hne.
        -- exact Hv.
      * cbn [heap withHeap]. apply length_insert.
      * intros b Hb. cbn [heap withHeap]. apply list_lookup_insert_ne. congruence.
      * reflexivity.
    + exists (withHeap (<[env := Environment.declareVar varName v e]> (heap rt)) rt).
      split; [|split; [|split; [|split]]].
      * cbn [interpretLoop]. rewrite Hi, Hraw, Hclass. cbn [negb].
        unfold bind, eval, lift, isDeclared, onEnv, declareVar, updateEnv.
        rewrite Heval, He, Hdecl, He. reflexivity.
      * cbn [heap withHeap]. eapply get_var.
        -- apply list_lookup_insert_eq. exact Hlt.
        -- cbn. apply write_same, Hne.
      * cbn [heap withHeap]. apply length_insert.
      * intros b Hb. cbn [heap withHeap]. apply list_lookup_insert_ne. congruence.
      * reflexivity.
Qed.

(** The theorem at [let x = 5] in a fresh session, and at [set n = 2] in a
    scope that holds [n]. *)
Lemma declaration_binds_or_fails_witness :
  (exists rt',
     interpretLoop 2 ["let x = 5"] 0 1 0 [] reset
     = interpretLoop 1 ["let x = 5"] 1 1 0 [] rt'
     /\ Environment.get (heap rt') 0 "x" = Ok (VNum 5))
  /\ interpretLoop 2 ["set n = 2"] 0 1 0 [] scopedSession
     = Threw (Error ("Variable " ++ quote "n" ++ " already declared"))
         scopedSession.
Proof.
  split.
  - destruct (declaration_binds_or_fails 1 ["let x = 5"] 0 1 0 [] reset
                "let x = 5" "x" "5" false (VNum 5) (Environment.new None)
                ltac:(lia) eq_refl eq_refl eq_refl eq_refl)
      as (rt' & H1 & H2 & _).
    exists rt'. split; assumption.
  - exact (declaration_binds_or_fails 1 ["set n = 2"] 0 1 0 [] scopedSession
             "set n = 2" "n" "2" true (VNum 2) scopedGlobal
             ltac:(lia) eq_refl eq_refl eq_refl eq_refl).
Defined.

(** ** More on the greedy quantifier *)

Section ManySome.
Context {A : Type}.

(** the longest run is taken when the rest of the pattern accepts it *)
Lemma many_greedy (p : ascii -> bool) (m : string) :
  forall (min : nat) (k : string -> string -> option A) (r : string) (a : A),
    all p m = true ->
    (min <= String.length m)%nat ->
    match r with String c _ => p c = false | EmptyString => True end ->
    k m r = Some a ->
    many p min k (m ++ r) = Some a.
Proof.
  induction m as [|c m IH]; intros min k r a Hm Hmin Hr Hk.
  - rewrite append_nil. cbn in Hmin. assert (min = 0)%nat as -> by lia.
    destruct r as [|d r]; cbn [many]; [exact Hk|]. rewrite Hr. exact Hk.
  - rewrite append_cons. cbn [many]. cbn [all] in Hm.
    apply andb_true_iff in Hm as [Hc Hm]. rewrite Hc.
    rewrite (IH (pred min) (fun x => k (String c x)) r a); auto.
    cbn in Hmin. lia.
Qed.

(** some run is accepted when the rest of the pattern accepts one *)
Lemma many_some (p : ascii -> bool) (m : string) :
  forall (min : nat) (k : string -> string -> option A) (r : string),
    all p m = true ->
    (min <= String.length m)%nat ->
    is_Some (k m r) ->
    is_Some (many p min k (m ++ r)).
Proof.
  induction m as [|c m IH]; intros min k r Hm Hmin Hk.
  - rewrite append_nil. cbn in Hmin. assert (min = 0)%nat as -> by lia.
    destruct r as [|d r]; cbn [many]; [exact Hk|].
    destruct (p d); [|exact Hk].
    destruct (many p _ _ r); [eauto | exact Hk].
  - rewrite append_cons. cbn [many]. cbn [all] in Hm.
    apply andb_true_iff in Hm as [Hc Hm]. rewrite Hc.
    destruct (IH (pred min) (fun x => k (String c x)) r) as [a Ha]; auto.
    { cbn in Hmin. lia. }
    rewrite Ha. eauto.
Qed.

End ManySome.

Lemma trimEnd_last (s : string) (c : ascii) :
  isSpace c = false -> trimEnd (s ++ String c "") = s ++ String c "".
Proof.
  intros Hc. induction s as [|d s IH].
  - rewrite append_nil. cbn. rewrite Hc. reflexivity.
  - rewrite append_cons. cbn [trimEnd]. rewrite IH.
    destruct s; reflexivity.
Qed.

Lemma dropLast_last (s : string) (c : ascii) :
  dropLast (s ++ String c "") = s.
Proof.
  induction s as [|d s IH]; [reflexivity|].
  rewrite append_cons. cbn [dropLast]. rewrite IH.
  destruct s; reflexivity.
Qed.

Lemma all_append (p : ascii -> bool) (a b : string) :
  all p (a ++ b) = all p a && all p b.
Proof.
  induction a as [|c a IH]; [reflexivity|].
  rewrite append_cons. cbn [all]. rewrite IH. apply andb_assoc.
Qed.

Lemma all_impl (p q : ascii -> bool) (s : string) :
  (forall c, p c = true -> q c = true) -> all p s = true -> all q s = true.
Proof.
  intros Hpq. induction s as [|c s IH]; [reflexivity|]. cbn [all].
  intros H. apply andb_true_iff in H as [Hc Hs].
  rewrite (Hpq c Hc), IH by exact Hs. reflexivity.
Qed.

Lemma length_append (a b : string) :
  String.length (a ++ b) = (String.length a + String.length b)%nat.
Proof.
  induction a as [|c a IH]; [reflexivity|].
  rewrite append_cons. cbn [String.length]. rewrite IH. reflexivity.
Qed.

Lemma stripPrefix_append (p s : string) : stripPrefix p (p ++ s) = Some s.
Proof.
  induction p as [|c p IH]; [destruct s; reflexivity|].
  rewrite append_cons. cbn [stripPrefix]. rewrite Ascii.eqb_refl. exact IH.
Qed.

(** a keyword, one blank and an argument that begins with no blank *)
Lemma wordArgMatch_arg (keyword arg : string) :
  all isDot arg = true ->
  match arg with String c _ => isSpace c = false | EmptyString => False end ->
  wordArgMatch keyword (keyword ++ " " ++ arg) = Some arg.
Proof.
  intros Hdot Hfirst. unfold wordArgMatch, lit. rewrite stripPrefix_append.
  apply (many_greedy isSpace " " 1 _ arg arg); [reflexivity | cbn; lia | |].
  - destruct arg; [contradiction | exact Hfirst].
  - rewrite <- (append_nil_r arg) at 1.
    apply (many_greedy isDot arg 1 _ "" arg); [exact Hdot | | exact I | reflexivity].
    destruct arg; [contradiction | cbn; lia].
Qed.

(** ** say with a quoted literal *)

Lemma classify_say_quoted (t : string) :
  all isDot t = true ->
  classify (sayLine (quote t)) = SSay (quote t).
Proof.
  intros Ht. unfold classify, sayLine, quote.
  set (q := dq ++ t ++ dq).
  assert (Hq : q = String "034" (t ++ dq)) by reflexivity.
  set (line := "say " ++ q).
  assert (Hline : line = String "s" (String "a" (String "y" (String " " q))))
    by reflexivity.
  change (isEmpty line || startsWith "#" line) with false. cbv iota.
  change (letMatch line) with (@None (string * string)).
  change (setMatch line) with (@None (string * string)). cbv iota.
  assert (Hassign : assignMatch line = None).
  { unfold assignMatch. apply many_none. intros m r Hsplit Hm.
    apply blanks_then_equals_none. rewrite Hline, Hq in Hsplit.
    do 4 (apply split_cons in Hsplit as [[-> ->] | [? [-> Hsplit]]];
          [ reflexivity | ]).
    discriminate Hm. }
  rewrite Hassign.
  assert (Hsay : sayMatch line = Some q).
  { apply (wordArgMatch_arg "say" q).
    - rewrite Hq. cbn [all]. rewrite all_append, Ht. reflexivity.
    - rewrite Hq. reflexivity. }
  rewrite Hsay. reflexivity.
Qed.

Lemma quotedLiteral_quote (t : string) :
  all isDot t = true -> quotedLiteral (quote t) = true.
Proof.
  intros Ht. unfold quotedLiteral, quote.
  change (dq ++ t ++ dq) with (String "034" (t ++ dq)).
  unfold one at 1. change (isQuote "034") with true. cbv iota.
  destruct (many_some isDot t 0 (fun _ => one isQuote (eos tt)) dq Ht
              ltac:(lia) ltac:(cbn; eauto)) as [u Hu].
  rewrite Hu. reflexivity.
Qed.

Lemma slice1_quote (t : string) : slice1 (quote t) = t.
Proof.
  unfold quote. change (dq ++ t ++ dq) with (String "034" (t ++ dq)).
  cbn [slice1]. apply dropLast_last.
Qed.

Lemma trim_sayLine_quote (t : string) :
  trim (sayLine (quote t)) = sayLine (quote t).
Proof.
  unfold trim.
  replace (trimStart (sayLine (quote t))) with (sayLine (quote t)) by reflexivity.
  change (sayLine (quote t)) with (("say " ++ dq ++ t) ++ dq).
  apply trimEnd_last. reflexivity.
Qed.

Lemma say_literal_step (fuel : nat) (lines : list string)
  (i end_ env : nat) (output : list string) (rt : Runtime) (raw t : string) :
  (i < end_)%nat ->
  lines !! i = Some raw ->
  trim raw = sayLine (quote t) ->
  all isDot t = true ->
  interpretLoop (S fuel) lines i end_ env output rt
  = interpretLoop fuel lines (i + 1) end_ env (output ++ [t])%list rt.
Proof.
  intros Hi Hraw Htrim Ht. apply Nat.ltb_lt in Hi.
  cbn [interpretLoop].
  rewrite Hi, Hraw, Htrim, (classify_say_quoted t Ht), (quotedLiteral_quote t Ht),
    slice1_quote.
  reflexivity.
Qed.

(** X7.  [say] with a quoted literal.  The text between the quotes
    is appended to the output as it stands, without evaluation, for any
    text without a line terminator; the session is unchanged and the block
    goes on at the next line. *)
Theorem say_literal_is_verbatim (fuel : nat) (lines : list string)
  (i end_ env : nat) (output : list string) (rt : Runtime) (raw t : string) :
  (i < end_)%nat ->
  lines !! i = Some raw ->
  trim raw = sayLine (quote t) ->
  all isDot t = true ->
  interpretLoop (S fuel) lines i end_ env output rt
  = interpretLoop fuel lines (i + 1) end_ env (output ++ [t])%list rt.
Proof. apply say_literal_step. Qed.


(** The theorem at a literal that would not evaluate. *)
Lemma say_literal_is_verbatim_witness :
  run 2 [sayLine (quote "1 +")] = Result (Output ["1 +"]).
Proof.
  refine (eq_trans (f_equal observe
            (say_literal_is_verbatim 1 [sayLine (quote "1 +")] 0 1 0 [] reset
               (sayLine (quote "1 +")) "1 +"
               ltac:(lia) eq_refl eq_refl eq_refl)) _).
  reflexivity.
Defined.

(** ** Decimal numerals *)

Lemma parseDigitsFrom_acc (d : Decimal.uint) :
  forall acc : positive,
    parseDigitsFrom (Z.pos acc) (NilEmpty.string_of_uint d)
    = Z.pos (Pos.of_uint_acc d acc).
Proof.
  induction d; intros acc; cbn [NilEmpty.string_of_uint parseDigitsFrom Pos.of_uint_acc];
    [reflexivity|..];
    rewrite <- IHd; f_equal;
    match goal with
    | |- context [digitVal ?c] =>
        let v := eval vm_compute in (digitVal c) in change (digitVal c) with v
    end; lia.
Qed.

Lemma parseDigitsFrom_uint (d : Decimal.uint) :
  parseDigitsFrom 0 (NilEmpty.string_of_uint d) = Z.of_N (Pos.of_uint d).
Proof.
  induction d; cbn [NilEmpty.string_of_uint parseDigitsFrom Pos.of_uint];
    [reflexivity | exact IHd | ..];
    change (10 * 0 + digitVal _)%Z with (Z.pos 1) +
    change (10 * 0 + digitVal _)%Z with (Z.pos 2) +
    change (10 * 0 + digitVal _)%Z with (Z.pos 3) +
    change (10 * 0 + digitVal _)%Z with (Z.pos 4) +
    change (10 * 0 + digitVal _)%Z with (Z.pos 5) +
    change (10 * 0 + digitVal _)%Z with (Z.pos 6) +
    change (10 * 0 + digitVal _)%Z with (Z.pos 7) +
    change (10 * 0 + digitVal _)%Z with (Z.pos 8) +
    change (10 * 0 + digitVal _)%Z with (Z.pos 9);
    apply parseDigitsFrom_acc.
Qed.

Lemma digits_of_uint (d : Decimal.uint) :
  all isDigit (NilEmpty.string_of_uint d) = true.
Proof. induction d; cbn [NilEmpty.string_of_uint all]; auto. Qed.

Lemma unorm_no_leading_zero (d l : Decimal.uint) :
  Decimal.unorm d = Decimal.D0 l -> l = Decimal.Nil.
Proof.
  induction d; cbn [Decimal.unorm]; intros H; try discriminate; auto.
  injection H as <-. reflexivity.
Qed.

(** the decimal numeral of a positive number: digits, no leading zero, and
    its value read back *)
Lemma numeral_of_positive (p : positive) :
  exists c r,
    NilEmpty.string_of_uint (Pos.to_uint p) = String c r
    /\ isDigit c = true /\ Ascii.eqb c "0" = false
    /\ all isDigit r = true
    /\ parseDigits (String c r) = Z.pos p.
Proof.
  pose proof (digits_of_uint (Pos.to_uint p)) as Hdig.
  pose proof (parseDigitsFrom_uint (Pos.to_uint p)) as Hval.
  rewrite Unsigned.of_to in Hval.
  pose proof (Unsigned.to_of (Pos.to_uint p)) as Hnorm.
  rewrite Unsigned.of_to in Hnorm. cbn [N.to_uint] in Hnorm.
  pose proof (Unsigned.to_uint_nonzero p) as Hnz.
  destruct (Pos.to_uint p) as [|l|l|l|l|l|l|l|l|l|l] eqn:Hp;
    cbn [NilEmpty.string_of_uint] in *.
  1: discriminate.
  1: { symmetry in Hnorm. apply unorm_no_leading_zero in Hnorm. subst l.
       exfalso. apply Hnz. reflexivity. }
  all: eexists _, _; split; [reflexivity|];
    split; [reflexivity|]; split; [reflexivity|];
    split; [exact Hdig | exact Hval].
Qed.

(** ** The host's evaluator on printed values *)

Lemma lex_nil (fuel : nat) : Host.lex fuel "" = Some [].
Proof. destruct fuel; reflexivity. Qed.

Lemma digit_classes (c : ascii) :
  isDigit c = true ->
  isSpace c = false /\ isIdentStart c = false /\ Host.isOpChar c = false
  /\ isQuote c = false /\ isWord c = true /\ isDot c = true.
Proof.
  unfold isDigit. intros H. apply andb_true_iff in H as [Hlo Hhi].
  apply Nat.leb_le in Hlo, Hhi.
  assert (Hc : c = ascii_of_nat (code c)) by (symmetry; apply ascii_nat_embedding).
  assert (Hcases : exists k, (k < 10)%nat /\ code c = (48 + k)%nat)
    by (exists (code c - 48)%nat; lia).
  destruct Hcases as (k & Hk & Hcode). rewrite Hc, Hcode. clear - Hk.
  do 10 (destruct k as [|k]; [vm_compute; auto 10|]). lia.
Qed.

Lemma span_digits_then (ds rest : string) :
  all isDigit ds = true ->
  match rest with String c _ => isDigit c = false | EmptyString => True end ->
  span isDigit (ds ++ rest) = (ds, rest).
Proof.
  intros Hds Hrest. induction ds as [|c ds IH].
  - rewrite append_nil. destruct rest as [|c r]; [reflexivity|].
    cbn [span]. rewrite Hrest. reflexivity.
  - rewrite append_cons. cbn [all span] in *.
    apply andb_true_iff in Hds as [Hc Hds]. rewrite Hc, IH by exact Hds.
    reflexivity.
Qed.

Lemma lex_numeral (s : string) (fuel : nat) :
  numeral s = true ->
  Host.lex (S fuel) s = Some [Host.TNum (parseDigits s)].
Proof.
  destruct s as [|c r]; [discriminate|]. unfold numeral.
  intros H. apply andb_true_iff in H as [H Hexact].
  apply andb_true_iff in H as [Hdig Hlead].
  pose proof Hdig as Hdig'. cbn [all] in Hdig'.
  apply andb_true_iff in Hdig' as [Hc Hr].
  destruct (digit_classes c Hc) as (Hsp & _).
  cbn [Host.lex]. rewrite Hsp, Hc.
  rewrite (span_all _ _ Hdig).
  apply negb_true_iff in Hlead. rewrite Hlead, Hexact. cbn [orb negb].
  rewrite lex_nil. reflexivity.
Qed.

Lemma lex_minus (t : string) (fuel : nat) :
  numeral t = true ->
  Host.lex (S (S fuel)) (String "-" t)
  = Some [Host.TOp "-"; Host.TNum (parseDigits t)].
Proof.
  intros Hnum.
  assert (Hstep : Host.lex (S (S fuel)) (String "-" t)
                  = let (op, r') := span Host.isOpChar (String "-" t) in
                    if existsb (String.eqb op) Host.operators
                    then cons (Host.TOp op) <$> Host.lex (S fuel) r' else None)
    by reflexivity.
  rewrite Hstep. clear Hstep.
  destruct t as [|c r]; [discriminate|].
  assert (Hc : isDigit c = true).
  { unfold numeral in Hnum. apply andb_true_iff in Hnum as [Hnum _].
    apply andb_true_iff in Hnum as [Hnum _]. cbn [all] in Hnum.
    apply andb_true_iff in Hnum as [Hc _]. exact Hc. }
  destruct (digit_classes c Hc) as (_ & _ & Hop & _).
  cbn [span]. change (Host.isOpChar "-") with true. cbv iota. rewrite Hop.
  rewrite (lex_numeral (String c r) fuel Hnum). reflexivity.
Qed.

Lemma evaluate_numeral (s : string) :
  numeral s = true ->
  Host.evaluate s = Host.HostValue (VNum (parseDigits s)).
Proof.
  intros H. unfold Host.evaluate.
  destruct s as [|c r] eqn:Hs; [discriminate|]. rewrite <- Hs in *.
  assert (Hlen : String.length s = S (String.length r)) by (rewrite Hs; reflexivity).
  rewrite Hlen, (lex_numeral s _ H). reflexivity.
Qed.

Lemma numeral_ofZ (n : Z) :
  (0 <= n)%Z -> exact n = true ->
  numeral (ofZ n) = true /\ parseDigits (ofZ n) = n.
Proof.
  intros Hn Hexact. destruct n as [|p|p]; [split; reflexivity| |lia].
  destruct (numeral_of_positive p) as (c & r & Hs & Hc & Hz & Hr & Hval).
  assert (Hof : ofZ (Z.pos p) = String c r).
  { unfold ofZ. cbn [Z.to_int NilZero.string_of_int]. unfold NilZero.string_of_uint.
    destruct (Pos.to_uint p); [discriminate|..]; exact Hs. }
  rewrite Hof. split; [|exact Hval].
  unfold numeral. rewrite Hval, Hexact, Hz. cbn [all]. rewrite Hc, Hr.
  reflexivity.
Qed.

Lemma exact_opp (n : Z) : exact (- n) = exact n.
Proof. unfold exact. rewrite Z.abs_opp. reflexivity. Qed.

(** the text of a number evaluates to the number *)
Lemma evaluate_ofZ (n : Z) :
  exact n = true -> Host.evaluate (ofZ n) = Host.HostValue (VNum n).
Proof.
  intros Hexact. destruct (Z_lt_le_dec n 0) as [Hneg|Hpos].
  - destruct n as [|p|p]; try lia.
    assert (Hex : exact (Z.pos p) = true) by (rewrite <- Hexact; symmetry; apply (exact_opp (Z.pos p))).
    destruct (numeral_ofZ (Z.pos p) ltac:(lia) Hex) as [Hnum Hval].
    assert (Hof : ofZ (Z.neg p) = String "-" (ofZ (Z.pos p))).
    { unfold ofZ. cbn [Z.to_int NilZero.string_of_int]. reflexivity. }
    rewrite Hof. unfold Host.evaluate.
    assert (Hlen : String.length (String "-" (ofZ (Z.pos p)))
                   = S (S (Nat.pred (String.length (ofZ (Z.pos p)))))).
    { destruct (ofZ (Z.pos p)); [discriminate | reflexivity]. }
    rewrite Hlen, (lex_minus _ _ Hnum), Hval. cbn.
    unfold Host.num. change (Z.neg p) with (- Z.pos p)%Z in Hexact.
    rewrite Hexact. reflexivity.
  - destruct (numeral_ofZ n Hpos Hexact) as [Hnum Hval].
    rewrite (evaluate_numeral _ Hnum), Hval. reflexivity.
Qed.

Lemma span_strChar (s : string) :
  all (Host.strChar "034") s = true ->
  span (Host.strChar "034") (s ++ dq) = (s, dq).
Proof.
  intros Hs. induction s as [|c s IH]; [reflexivity|].
  rewrite append_cons. cbn [all span] in *.
  apply andb_true_iff in Hs as [Hc Hs]. rewrite Hc, IH by exact Hs.
  reflexivity.
Qed.

(** the text of a quoted string evaluates to the string *)
Lemma evaluate_quote (s : string) :
  all (Host.strChar "034") s = true ->
  Host.evaluate (quote s) = Host.HostValue (VStr s).
Proof.
  intros Hs. unfold Host.evaluate, quote.
  change (dq ++ s ++ dq) with (String "034" (s ++ dq)).
  cbn [String.length Host.lex].
  change (isSpace "034") with false. change (isDigit "034") with false.
  change (isQuote "034") with true. cbv iota.
  rewrite (span_strChar s Hs). unfold dq at 1.
  change (Ascii.eqb "034" "034") with true. cbv iota.
  rewrite lex_nil. reflexivity.
Qed.

Lemma plain_strChar (c : ascii) :
  plainChar c = true -> Host.strChar "034" c = true.
Proof.
  unfold plainChar, Host.strChar, isDot, isLineTerminator.
  intros H. apply andb_true_iff in H as [H Hb].
  apply andb_true_iff in H as [Hlo Hq].
  rewrite Hq, Hb. cbn [andb]. apply Nat.leb_le in Hlo.
  destruct (Nat.eqb_spec (code c) 10); [lia|].
  destruct (Nat.eqb_spec (code c) 13); [lia|]. reflexivity.
Qed.

(** ** Expressions *)

Lemma replaceRefs_plain (h : list Environment.t) (env : nat) (s : string) :
  all (fun c => negb (isIdentStart c)) s = true ->
  forall fuel, replaceRefs fuel h env s = Ok s.
Proof.
  induction s as [|c s IH]; intros Hs fuel; [destruct fuel; reflexivity|].
  cbn [all] in Hs. apply andb_true_iff in Hs as [Hc Hs].
  apply negb_true_iff in Hc.
  destruct fuel; [reflexivity|]. cbn [replaceRefs].
  unfold varIndexMatch, one. rewrite Hc, (IH Hs). reflexivity.
Qed.

Lemma replaceRefs_name (h : list Environment.t) (env : nat) (y : string)
  (fuel : nat) :
  isIdentifier y = true ->
  replaceRefs (S fuel) h env y
  = match resolve h env y [] with
    | Ok sub => Ok sub
    | Throw e => Throw e
    | Unmodelled => Unmodelled
    end.
Proof.
  intros Hy. destruct y as [|c y]; [discriminate|].
  cbn [isIdentifier] in Hy. apply andb_true_iff in Hy as [Hc Hw].
  cbn [replaceRefs]. unfold varIndexMatch, one. rewrite Hc, (span_all _ _ Hw).
  cbn [String.length indexGroups].
  destruct (resolve h env (String c y) []) as [sub| |]; try reflexivity.
  cbn [rbind]. destruct fuel; cbn [replaceRefs rbind]; rewrite append_nil_r;
    reflexivity.
Qed.

Lemma evalExpression_numeral (h : list Environment.t)
  (env : nat) (s : string) :
  numeral s = true ->
  evalExpression s h env = Ok (VNum (parseDigits s)).
Proof.
  intros Hnum. unfold evalExpression.
  assert (Hdig : all isDigit s = true).
  { destruct s; [discriminate|]. unfold numeral in Hnum.
    apply andb_true_iff in Hnum as [Hnum _].
    apply andb_true_iff in Hnum as [Hnum _]. exact Hnum. }
  assert (Htrim : trim s = s).
  { destruct s as [|c r]; [discriminate|]. unfold trim, trimStart.
    cbn [all] in Hdig. apply andb_true_iff in Hdig as [Hc Hr].
    destruct (digit_classes c Hc) as (Hsp & _ & _ & _ & Hw & _).
    cbn [span]. rewrite Hsp. cbn [snd]. apply trimEnd_word.
    cbn [all]. rewrite Hw. cbn [andb].
    apply (all_impl isDigit); [|exact Hr].
    intros d Hd. apply (digit_classes d Hd). }
  rewrite Htrim, replaceRefs_plain.
  - cbn [rbind]. rewrite (evaluate_numeral s Hnum). reflexivity.
  - apply (all_impl isDigit); [|exact Hdig].
    intros d Hd. destruct (digit_classes d Hd) as (_ & Hid & _).
    rewrite Hid. reflexivity.
Qed.

(** X8.  A decimal numeral without leading zero evaluates to the
    number it denotes, in any scope. *)
Theorem integer_literal_evaluates_to_its_value (h : list Environment.t)
  (env : nat) (s : string) :
  numeral s = true ->
  evalExpression s h env = Ok (VNum (parseDigits s)).
Proof. apply evalExpression_numeral. Qed.


(** The theorem at [42]. *)
Lemma integer_literal_witness :
  evalExpression "42" rootHeap 0 = Ok (VNum 42).
Proof. exact (integer_literal_evaluates_to_its_value rootHeap 0 "42" eq_refl). Defined.

(** X9.  A double-quoted string literal in which nothing looks
    like a name (no letter, no underscore, no quote, no backslash, no line
    terminator) evaluates to its text, in any scope. *)
Theorem quoted_text_without_names_evaluates_to_itself
  (h : list Environment.t) (env : nat) (t : string) :
  all literalChar t = true ->
  evalExpression (quote t) h env = Ok (VStr t).
Proof.
  intros Ht. unfold evalExpression.
  assert (Htrim : trim (quote t) = quote t).
  { unfold trim. replace (trimStart (quote t)) with (quote t) by reflexivity.
    change (quote t) with ((dq ++ t) ++ dq). apply trimEnd_last. reflexivity. }
  rewrite Htrim, replaceRefs_plain.
  - cbn [rbind]. rewrite evaluate_quote; [reflexivity|].
    apply (all_impl literalChar); [|exact Ht].
    intros c Hc. apply andb_true_iff in Hc as [Hc _]. exact Hc.
  - unfold quote. change (dq ++ t ++ dq) with (String "034" (t ++ dq)).
    cbn [all]. rewrite all_append.
    replace (all (fun c => negb (isIdentStart c)) t) with true; [reflexivity|].
    symmetry. apply (all_impl literalChar); [|exact Ht].
    intros c Hc. apply andb_true_iff in Hc as [_ Hc]. exact Hc.
Qed.

(** The theorem at a text of digits and punctuation. *)
Lemma quoted_text_witness :
  evalExpression (quote "1, 2!") rootHeap 0 = Ok (VStr "1, 2!").
Proof.
  exact (quoted_text_without_names_evaluates_to_itself rootHeap 0 "1, 2!"
           eq_refl).
Defined.

(** ** say with a name *)

Lemma word_classes (c : ascii) :
  isWord c = true -> isDot c = true /\ Ascii.eqb "=" c = false
                     /\ isQuote c = false.
Proof.
  intros Hw. pose proof (word_not_space c Hw) as Hsp.
  unfold isDot, isLineTerminator, isQuote.
  assert (H10 : (code c =? 10)%nat = false).
  { destruct (Nat.eqb_spec (code c) 10) as [E|]; [|reflexivity].
    unfold isSpace in Hsp. rewrite E in Hsp. discriminate. }
  assert (H13 : (code c =? 13)%nat = false).
  { destruct (Nat.eqb_spec (code c) 13) as [E|]; [|reflexivity].
    unfold isSpace in Hsp. rewrite E in Hsp. discriminate. }
  rewrite H10, H13. split; [reflexivity|]. split.
  - destruct (Ascii.eqb_spec "=" c) as [<-|]; [discriminate | reflexivity].
  - unfold isWord, isAlpha, isDigit in Hw.
    destruct (Nat.eqb_spec (code c) 34) as [E|];
      [rewrite E in Hw; discriminate|].
    destruct (Nat.eqb_spec (code c) 39) as [E|];
      [rewrite E in Hw; discriminate|]. reflexivity.
Qed.

Lemma identStart_word (c : ascii) : isIdentStart c = true -> isWord c = true.
Proof.
  unfold isIdentStart, isWord. intros H. apply orb_true_iff in H as [H|H];
    rewrite H; [reflexivity | apply orb_true_r].
Qed.

Lemma trimEnd_append (s w : string) :
  isEmpty (trimEnd w) = false -> trimEnd (s ++ w) = s ++ trimEnd w.
Proof.
  intros Hw. induction s as [|c s IH]; [reflexivity|].
  rewrite append_cons. cbn [trimEnd]. rewrite IH.
  replace (isEmpty (s ++ trimEnd w)) with false; [reflexivity|].
  destruct s; [rewrite append_nil; auto | reflexivity].
Qed.

Lemma identifier_parts (y : string) :
  isIdentifier y = true ->
  exists c r, y = String c r /\ isIdentStart c = true /\ all isWord y = true.
Proof.
  destruct y as [|c r]; [discriminate|]. cbn [isIdentifier]. intros H.
  apply andb_true_iff in H as [Hc Hw]. eauto.
Qed.

Lemma trim_sayLine_name (y : string) :
  isIdentifier y = true -> trim (sayLine y) = sayLine y.
Proof.
  intros Hy. destruct (identifier_parts y Hy) as (c & r & -> & Hc & Hw).
  unfold trim.
  replace (trimStart (sayLine (String c r))) with (sayLine (String c r))
    by reflexivity.
  unfold sayLine. rewrite trimEnd_append; rewrite (trimEnd_word _ Hw); reflexivity.
Qed.

Lemma classify_say_name (y : string) :
  isIdentifier y = true ->
  classify (sayLine y) = SSay y /\ quotedLiteral y = false.
Proof.
  intros Hy. destruct (identifier_parts y Hy) as (c & r & Heq & Hc & Hw).
  pose proof (identStart_word c Hc) as Hcw.
  destruct (word_classes c Hcw) as (Hdot & Heqc & Hq).
  pose proof (word_not_space c Hcw) as Hsp.
  split.
  - unfold classify, sayLine.
    set (line := "say " ++ y).
    assert (Hline : line = String "s" (String "a" (String "y" (String " " y))))
      by reflexivity.
    change (isEmpty line || startsWith "#" line) with false. cbv iota.
    change (letMatch line) with (@None (string * string)).
    change (setMatch line) with (@None (string * string)). cbv iota.
    assert (Heq' : startsWith "=" (trimStart (String " " y)) = false).
    { rewrite trimStart_blank by reflexivity. rewrite Heq.
      unfold trimStart. cbn [span]. rewrite Hsp. cbn [snd].
      unfold startsWith. cbn [stripPrefix]. rewrite Heqc. reflexivity. }
    assert (Hassign : assignMatch line = None).
    { unfold assignMatch. apply many_none. intros m r' Hsplit Hm.
      apply blanks_then_equals_none. rewrite Hline in Hsplit.
      do 4 (apply split_cons in Hsplit as [[-> ->] | [? [-> Hsplit]]];
            [ first [ reflexivity | exact Heq' ] | ]).
      discriminate Hm. }
    rewrite Hassign.
    assert (Hsay : sayMatch line = Some y).
    { apply (wordArgMatch_arg "say" y).
      - apply (all_impl isWord); [|exact Hw].
        intros d Hd. apply (word_classes d Hd).
      - rewrite Heq. exact Hsp. }
    rewrite Hsay. reflexivity.
  - rewrite Heq. unfold quotedLiteral, one. rewrite Hq. reflexivity.
Qed.

Lemma say_name_step (fuel : nat) (lines : list string)
  (i end_ env : nat) (output : list string) (rt : Runtime) (raw y : string) :
  (i < end_)%nat ->
  lines !! i = Some raw ->
  trim raw = sayLine y ->
  isIdentifier y = true ->
  interpretLoop (S fuel) lines i end_ env output rt
  = (do text <- tryCatch
                  (do val <- eval y env; lift (fun _ => toString val))
                  (fun e => do message <- messageOf e;
                            ret ("Error in say: " ++ message));
     interpretLoop fuel lines (i + 1) end_ env (output ++ [text])%list) rt.
Proof.
  intros Hi Hraw Htrim Hy. apply Nat.ltb_lt in Hi.
  destruct (classify_say_name y Hy) as [Hclass Hq].
  cbn [interpretLoop]. rewrite Hi, Hraw, Htrim, Hclass, Hq. reflexivity.
Qed.

Lemma evalExpression_name (h : list Environment.t) (env : nat)
  (y : string) (v : value) :
  isIdentifier y = true ->
  Environment.get h env y = Ok v ->
  printable v = true ->
  evalExpression y h env = Ok v.
Proof.
  intros Hy Hget Hv. unfold evalExpression. rewrite (trim_identifier y Hy).
  destruct y as [|c y'] eqn:Hyeq; [discriminate|]. rewrite <- Hyeq in *.
  assert (Hlen : String.length y = S (String.length y')) by (rewrite Hyeq; reflexivity).
  rewrite Hlen, (replaceRefs_name h env y _ Hy).
  unfold resolve. rewrite Hget. cbn [rbind applyIndices].
  destruct v as [|n|s|b|k]; try discriminate; cbn [printable] in Hv.
  - unfold toString. rewrite Hv. cbn [rbind]. rewrite (evaluate_ofZ n Hv).
    reflexivity.
  - unfold jsonStringify. rewrite Hv. cbn [rbind].
    change (dq ++ s ++ dq) with (quote s).
    rewrite (evaluate_quote s (all_impl _ _ s plain_strChar Hv)). reflexivity.
  - destruct b; reflexivity.
Qed.

(** X10.  [say] with a name.  When the name resolves from the
    current scope to a number, a string of plain characters or a boolean,
    [say] appends the text of that value to the output and the block goes
    on at the next line with the session unchanged. *)
Theorem say_prints_the_value_of_a_name (fuel : nat) (lines : list string)
  (i end_ env : nat) (output : list string) (rt : Runtime)
  (raw y text : string) (v : value) :
  (i < end_)%nat ->
  lines !! i = Some raw ->
  trim raw = sayLine y ->
  isIdentifier y = true ->
  Environment.get (heap rt) env y = Ok v ->
  printable v = true ->
  toString v = Ok text ->
  interpretLoop (S fuel) lines i end_ env output rt
  = interpretLoop fuel lines (i + 1) end_ env (output ++ [text])%list rt.
Proof.
  intros Hi Hraw Htrim Hy Hget Hv Htext.
  rewrite (say_name_step fuel lines i end_ env output rt raw y Hi Hraw Htrim Hy).
  unfold bind at 1. unfold tryCatch, bind, eval, lift.
  rewrite (evalExpression_name _ _ _ _ Hy Hget Hv), Htext. reflexivity.
Qed.

(** The theorem at [say n] in the block scope of [scopedSession], where
    [n] comes from the global scope. *)
Lemma say_prints_the_value_of_a_name_witness :
  interpretLoop 2 ["say n"] 0 1 1 [] scopedSession
  = interpretLoop 1 ["say n"] 1 1 1 ["1"] scopedSession.
Proof.
  exact (say_prints_the_value_of_a_name 1 ["say n"] 0 1 1 [] scopedSession
           "say n" "n" "1" (VNum 1)
           ltac:(lia) eq_refl eq_refl eq_refl eq_refl eq_refl eq_refl).
Defined.

(** X11.  [say] catches a failed lookup.  When the name does not
    resolve, nothing is thrown: the line appended to the output is
    [Error in say: Variable or index error: ], the name, [ - ] and the
    message of the lookup, and the block goes on at the next line. *)
Theorem say_reports_a_failed_lookup_inline (fuel : nat) (lines : list string)
  (i end_ env : nat) (output : list string) (rt : Runtime)
  (raw y message : string) :
  (i < end_)%nat ->
  lines !! i = Some raw ->
  trim raw = sayLine y ->
  isIdentifier y = true ->
  Environment.get (heap rt) env y = Throw (Error message) ->
  interpretLoop (S fuel) lines i end_ env output rt
  = interpretLoop fuel lines (i + 1) end_ env
      (output ++ [("Error in say: Variable or index error: " ++ y ++ " - "
                   ++ message)%string])%list rt.
Proof.
  intros Hi Hraw Htrim Hy Hget.
  rewrite (say_name_step fuel lines i end_ env output rt raw y Hi Hraw Htrim Hy).
  unfold bind at 1. unfold tryCatch, bind, eval, lift.
  rewrite (evalExpression_unbound _ _ _ _ Hy Hget). reflexivity.
Qed.

(** The theorem at [say z] in a fresh session. *)
Lemma say_reports_a_failed_lookup_inline_witness :
  run 2 ["say z"]
  = Result (Output ["Error in say: Variable or index error: z - Variable "
                    ++ quote "z" ++ " not found"]).
Proof.
  refine (eq_trans (f_equal observe
            (say_reports_a_failed_lookup_inline 1 ["say z"] 0 1 0 [] reset
               "say z" "z" ("Variable " ++ dq ++ "z" ++ dq ++ " not found")
               ltac:(lia) eq_refl eq_refl eq_refl eq_refl)) _).
  reflexivity.
Defined.

(** ** repeat with a count *)

Lemma count_parts (ds : string) :
  isCount ds = true ->
  exists c r, ds = String c r /\ isDigit c = true /\ all isDigit ds = true.
Proof.
  unfold isCount. intros H. apply andb_true_iff in H as [Hd Hne].
  destruct ds as [|c r]; [discriminate|]. pose proof Hd as Hd'.
  cbn [all] in Hd'. apply andb_true_iff in Hd' as [Hc _]. eauto.
Qed.

Lemma classify_repeat_count (ds : string) :
  isCount ds = true -> classify (repeatLine ds) = SRepeat ds.
Proof.
  intros Hcount. destruct (count_parts ds Hcount) as (c & r & Heq & Hc & Hdig).
  destruct (digit_classes c Hc) as (Hsp & _ & _ & _ & Hw & _).
  destruct (word_classes c Hw) as (_ & Heqc & _).
  unfold classify. rewrite repeatLine_cons.
  set (line := String "r" _).
  change (isEmpty line || startsWith "#" line) with false. cbv iota.
  change (letMatch line) with (@None (string * string)).
  change (setMatch line) with (@None (string * string)). cbv iota.
  assert (Heq' : startsWith "=" (trimStart (String " " (ds ++ ":"))) = false).
  { rewrite trimStart_blank by reflexivity. rewrite Heq, append_cons.
    unfold trimStart. cbn [span]. rewrite Hsp. cbn [snd].
    unfold startsWith. cbn [stripPrefix]. rewrite Heqc. reflexivity. }
  assert (Hassign : assignMatch line = None).
  { unfold assignMatch. apply many_none. intros m r' Hsplit Hm.
    apply blanks_then_equals_none. unfold line in Hsplit.
    do 7 (apply split_cons in Hsplit as [[-> ->] | [? [-> Hsplit]]];
          [ first [ reflexivity | exact Heq' ] | ]).
    discriminate Hm. }
  rewrite Hassign.
  change (sayMatch line) with (@None string).
  change (ifMatch line) with (@None string).
  change (elseMatch line) with (@None unit). cbv iota.
  assert (Hrepeat : repeatMatch line = Some ds).
  { unfold repeatMatch, line.
    change (String "r" (String "e" (String "p" (String "e" (String "a"
             (String "t" (String " " (ds ++ ":"))))))))
      with ("repeat" ++ " " ++ (ds ++ ":")).
    unfold lit at 1. rewrite stripPrefix_append.
    apply (many_greedy isSpace " " 1 _ (ds ++ ":") ds);
      [reflexivity | cbn; lia | rewrite Heq, append_cons; exact Hsp |].
    apply (many_greedy isDigit ds 1 _ ":" ds);
      [exact Hdig | rewrite Heq; cbn; lia | reflexivity | reflexivity]. }
  rewrite Hrepeat. reflexivity.
Qed.

Lemma forLoop_same (body : M blockValue) (l : list string) :
  (forall rt, exists rt', body rt = Returned (Output l) rt') ->
  forall count output rt,
    exists rt',
      forLoop body count output rt
      = Returned (output ++ concat (replicate count l))%list rt'.
Proof.
  intros Hbody. induction count as [|count IH]; intros output rt.
  - exists rt. cbn. rewrite app_nil_r. reflexivity.
  - cbn [forLoop replicate concat]. unfold bind at 1.
    destruct (Hbody rt) as [rt1 H1]. rewrite H1.
    cbn [pushAll]. unfold bind, ret.
    destruct (IH (output ++ l)%list rt1) as [rt2 H2].
    exists rt2. rewrite H2, <- app_assoc. reflexivity.
Qed.

Lemma concat_replicate_singleton {A : Type} (n : nat) (x : A) :
  concat (replicate n [x]) = replicate n x.
Proof. induction n as [|n IH]; [reflexivity|]. cbn. rewrite IH. reflexivity. Qed.

(** the header [repeat ds:] over a body of one line *)
Lemma repeat_one_line (fuel : nat) (ds body : string) (l : list string) :
  isCount ds = true -> exact (parseDigits ds) = true ->
  startsWith "    " body = true ->
  (forall rt, exists rt',
     interpretLoop (S (S fuel)) [repeatLine ds; body] 1 2
       (length (heap rt)) []
       (withHeap (heap rt ++ [Environment.new (Some 0)])%list rt)
     = Returned (Output l) rt') ->
  run (3 + fuel) [repeatLine ds; body]
  = Result (Output (concat (replicate (Z.to_nat (parseDigits ds)) l))).
Proof.
  intros Hcount Hexact Hbody Hrun. unfold run, interpret, interpretBlock.
  change (3 + fuel)%nat with (S (S (S fuel))).
  remember (S (S fuel)) as fuel2 eqn:Hfuel2.
  cbn [interpretLoop length globalEnv reset].
  change (0 <? 2)%nat with true. cbn [negb].
  change ([repeatLine ds; body] !! 0%nat) with (Some (repeatLine ds)).
  cbv iota. rewrite trim_repeatLine, (classify_repeat_count ds Hcount), Hexact.
  cbn [negb].
  assert (Hscan : scanBlock [repeatLine ds; body] (0 + 1) = 2%nat).
  { change (scanBlock [repeatLine ds; body] (0 + 1))
      with (if startsWith "    " body then 2%nat else 1%nat).
    rewrite Hbody. reflexivity. }
  rewrite Hscan. unfold bind at 1.
  match goal with
  | |- context [forLoop ?b ?n ?o ?s] =>
      assert (Hb : forall rt, exists rt', b rt = Returned (Output l) rt')
        by (intros rt; unfold bind, newEnvironment; apply Hrun);
      destruct (forLoop_same b l Hb n o s) as [rt' Hloop]
  end.
  cbn [app] in Hloop. rewrite Hloop, Hfuel2. reflexivity.
Qed.

Lemma repeat_say_family (fuel : nat) (ds t : string) :
  isCount ds = true -> exact (parseDigits ds) = true ->
  all isDot t = true ->
  run (3 + fuel) [repeatLine ds; "    " ++ sayLine (quote t)]
  = Result (Output (replicate (Z.to_nat (parseDigits ds)) t)).
Proof.
  intros Hcount Hexact Ht.
  rewrite (repeat_one_line fuel ds ("    " ++ sayLine (quote t)) [t]
             Hcount Hexact eq_refl).
  - rewrite concat_replicate_singleton. reflexivity.
  - intros rt. eexists.
    rewrite (say_literal_step (S fuel)
               [repeatLine ds; "    " ++ sayLine (quote t)] 1 2 _ [] _
               ("    " ++ sayLine (quote t)) t ltac:(lia) eq_refl);
      [reflexivity | | exact Ht].
    replace (trim ("    " ++ sayLine (quote t))) with (trim (sayLine (quote t)))
      by reflexivity.
    apply trim_sayLine_quote.
Qed.

(** ** The body of a function *)

Lemma scanFrom_take (rest : list string) :
  forall k,
    exists n,
      scanFrom rest k = (k + n)%nat
      /\ (n <= length rest)%nat
      /\ Forall (fun l => startsWith "    " l = true) (take n rest)
      /\ (forall l, rest !! n = Some l -> startsWith "    " l = false).
Proof.
  induction rest as [|l rest IH]; intros k; cbn [scanFrom].
  - exists 0%nat. split; [lia|]. split; [cbn; lia|].
    split; [constructor | discriminate].
  - destruct (startsWith "    " l) eqn:Hl.
    + destruct (IH (S k)) as (n & Hn & Hlen & Hall & Hstop).
      exists (S n). cbn [length]. split; [lia|]. split; [lia|].
      split; [|exact Hstop]. cbn. constructor; assumption.
    + exists 0%nat. cbn [length]. split; [lia|]. split; [lia|].
      split; [constructor|].
      intros l' Hl'. injection Hl' as <-. exact Hl.
Qed.

Lemma slice_scanBlock (lines : list string) (blockStart : nat) :
  let body := slice lines blockStart (scanBlock lines blockStart) in
  Forall (fun l => startsWith "    " l = true) body
  /\ (forall k l, body !! k = Some l -> lines !! (blockStart + k)%nat = Some l)
  /\ (blockStart <= length lines ->
      (blockStart + length body)%nat = scanBlock lines blockStart
      /\ (scanBlock lines blockStart <= length lines)%nat)
  /\ (forall l, lines !! (blockStart + length body)%nat = Some l ->
        startsWith "    " l = false).
Proof.
  cbv zeta. unfold slice, scanBlock.
  destruct (scanFrom_take (list.drop blockStart lines) blockStart)
    as (n & Hn & Hlen & Hall & Hstop).
  rewrite Hn. replace (blockStart + n - blockStart)%nat with n by lia.
  assert (Htake : length (take n (list.drop blockStart lines)) = n)
    by (rewrite length_take; lia).
  split; [exact Hall|]. split; [|split].
  - intros k l Hk. apply lookup_take_Some in Hk as [Hk _].
    rewrite lookup_drop in Hk. exact Hk.
  - intros Hstart. rewrite Htake. split; [reflexivity|].
    rewrite length_drop in Hlen. lia.
  - intros l Hl. rewrite Htake in Hl. apply Hstop.
    rewrite lookup_drop. exact Hl.
Qed.

(** X12.  A function definition records, under the function's name,
    the parameters split at the commas and a copy of the lines that follow
    the header for as long as they start with four spaces: every recorded
    line is the program line at the same offset, the first line after them
    does not start with four spaces, the block goes on there, and no scope
    changes. *)
Theorem function_definition_captures_its_body (fuel : nat)
  (lines : list string) (i end_ env : nat) (output : list string)
  (rt : Runtime) (raw funcName paramsStr : string) :
  (i < end_)%nat ->
  lines !! i = Some raw ->
  classify (trim raw) = SFunction funcName paramsStr ->
  funcName <> "__proto__" ->
  exists def,
    interpretLoop (S fuel) lines i end_ env output rt
    = interpretLoop fuel lines (scanBlock lines (i + 1)) end_ env output
        (withFunction funcName def rt)
    /\ functions (withFunction funcName def rt) !! funcName = Some def
    /\ heap (withFunction funcName def rt) = heap rt
    /\ params def = splitList paramsStr
    /\ Forall (fun l => startsWith "    " l = true) (bodyLines def)
    /\ (forall k l, bodyLines def !! k = Some l ->
          lines !! (i + 1 + k)%nat = Some l)
    /\ (i + 1 + length (bodyLines def))%nat = scanBlock lines (i + 1)
    /\ (forall l, lines !! (i + 1 + length (bodyLines def))%nat = Some l ->
          startsWith "    " l = false).
Proof.
  intros Hi Hraw Hclass Hname.
  pose proof (lookup_lt_Some _ _ _ Hraw) as Hlen.
  destruct (slice_scanBlock lines (i + 1)) as (Hall & Hsub & Hend & Hstop).
  destruct (Hend ltac:(lia)) as [Hend' _].
  eexists. split; [|split; [|split; [|split; [|split; [|split; [|split]]]]]].
  - cbn [interpretLoop]. apply Nat.ltb_lt in Hi. rewrite Hi, Hraw, Hclass.
    cbn [negb]. apply String.eqb_neq in Hname. rewrite Hname. reflexivity.
  - cbn. apply lookup_insert_eq.
  - reflexivity.
  - reflexivity.
  - exact Hall.
  - exact Hsub.
  - exact Hend'.
  - exact Hstop.
Qed.

(** The theorem at the header of [addProgram]. *)
Lemma function_definition_captures_its_body_witness :
  exists def,
    interpretLoop 4 addProgram 0 3 0 [] reset
    = interpretLoop 3 addProgram 2 3 0 [] (withFunction "add" def reset)
    /\ params def = ["a"; "b"]
    /\ bodyLines def !! 0%nat = Some "    return a + b"
    /\ length (bodyLines def) = 1%nat.
Proof.
  destruct (function_definition_captures_its_body 3 addProgram 0 3 0 [] reset
              "function add(a, b):" "add" "a, b"
              ltac:(lia) eq_refl eq_refl ltac:(discriminate))
    as (def & Hrun & _ & _ & Hparams & _ & Hlines & Hlen & _).
  change (scanBlock addProgram (0 + 1)) with 2%nat in Hrun, Hlen.
  assert (Hone : length (bodyLines def) = 1%nat) by lia.
  exists def. split; [exact Hrun|]. split; [exact Hparams|].
  split; [|exact Hone].
  destruct (bodyLines def) as [|l ls] eqn:Hb; [discriminate Hone|].
  pose proof (Hlines 0%nat l eq_refl) as Hl.
  injection Hl as <-. reflexivity.
Defined.

(** ** parseValue *)

Lemma digit_cases (c : ascii) :
  isDigit c = true ->
  c = "0"%char \/ c = "1"%char \/ c = "2"%char \/ c = "3"%char \/ c = "4"%char
  \/ c = "5"%char \/ c = "6"%char \/ c = "7"%char \/ c = "8"%char \/ c = "9"%char.
Proof.
  unfold isDigit. intros H.
  assert (Hc : c = ascii_of_nat (code c)) by (symmetry; apply ascii_nat_embedding).
  assert (Hr : (48 <= code c <= 57)%nat).
  { apply andb_true_iff in H as [H1 H2].
    apply Nat.leb_le in H1. apply Nat.leb_le in H2. lia. }
  assert (Hcases : (code c = 48 \/ code c = 49 \/ code c = 50 \/ code c = 51
                    \/ code c = 52 \/ code c = 53 \/ code c = 54 \/ code c = 55
                    \/ code c = 56 \/ code c = 57)%nat) by lia.
  rewrite Hc.
  repeat (destruct Hcases as [-> | Hcases]; [auto 10|]). rewrite Hcases. auto 10.
Qed.

Lemma trim_digits (s : string) : all isDigit s = true -> trim s = s.
Proof.
  intros Hdig. destruct s as [|c r]; [reflexivity|]. unfold trim, trimStart.
  pose proof Hdig as Hdig'. cbn [all] in Hdig'.
  apply andb_true_iff in Hdig' as [Hc Hr].
  destruct (digit_classes c Hc) as (Hsp & _).
  cbn [span]. rewrite Hsp. cbn [snd]. apply trimEnd_word.
  apply (all_impl isDigit); [|exact Hdig].
  intros d Hd. apply (digit_classes d Hd).
Qed.

Lemma hasDigit_cons (c : ascii) (r : string) :
  isDigit c = true -> hasDigit (String c r) = true.
Proof. intros Hc. unfold hasDigit. cbn [all]. rewrite Hc. reflexivity. Qed.

Lemma toNumber_count (s : string) :
  isCount s = true -> exact (parseDigits s) = true ->
  toNumber s = IsNumber (parseDigits s).
Proof.
  intros Hcount Hexact. destruct (count_parts s Hcount) as (c & r & Heq & Hc & Hdig).
  subst s. unfold toNumber. cbv zeta. cbn [isEmpty].
  rewrite (hasDigit_cons c r Hc). cbn [negb].
  destruct (digit_cases c Hc) as [->|[->|[->|[->|[->|[->|[->|[->|[->| ->]]]]]]]]];
    cbv iota; rewrite Z.mul_1_l, Hdig, Hexact; reflexivity.
Qed.

Lemma quotedBy_quote (q : ascii) (t : string) :
  isDot q = true -> all isDot t = true ->
  quotedBy q (String q (t ++ String q "")) = true.
Proof.
  intros Hq Ht. unfold quotedBy. unfold one at 1. rewrite Ascii.eqb_refl.
  destruct (many_some isDot t 0 (fun _ => one (Ascii.eqb q) (eos tt))
              (String q "") Ht ltac:(lia)) as [u Hu].
  { cbn. rewrite Ascii.eqb_refl. cbn. eauto. }
  rewrite Hu. reflexivity.
Qed.

(** X13.  parseValue on literals.  A text in double or in single
    quotes, without line terminator inside, is the string between the
    quotes; a run of digits is its number; [true] and [false] are the
    booleans, not names looked up; the empty text is the number 0. *)
Theorem parseValue_reads_literals (rt : Runtime) :
  (forall t, all isDot t = true ->
     parseValue (quote t) rt = Ok (VStr t)
     /\ parseValue ("'" ++ t ++ "'") rt = Ok (VStr t))
  /\ (forall s, isCount s = true -> exact (parseDigits s) = true ->
        parseValue s rt = Ok (VNum (parseDigits s)))
  /\ parseValue "true" rt = Ok (VBool true)
  /\ parseValue "false" rt = Ok (VBool false)
  /\ parseValue "" rt = Ok (VNum 0).
Proof.
  split; [|split; [|repeat split; reflexivity]].
  - intros t Ht. split.
    + unfold parseValue.
      assert (Htrim : trim (quote t) = quote t).
      { unfold trim. replace (trimStart (quote t)) with (quote t) by reflexivity.
        change (quote t) with ((dq ++ t) ++ dq). apply trimEnd_last. reflexivity. }
      rewrite Htrim. unfold quote at 1.
      change (dq ++ t ++ dq) with (String "034" (t ++ String "034" "")).
      rewrite (quotedBy_quote "034" t eq_refl Ht). cbn [orb].
      rewrite slice1_quote. reflexivity.
    + unfold parseValue.
      assert (Htrim : trim ("'" ++ t ++ "'") = "'" ++ t ++ "'").
      { unfold trim.
        replace (trimStart ("'" ++ t ++ "'")) with ("'" ++ t ++ "'") by reflexivity.
        change ("'" ++ t ++ "'") with (("'" ++ t) ++ "'"). apply trimEnd_last.
        reflexivity. }
      rewrite Htrim.
      change ("'" ++ t ++ "'") with (String "'" (t ++ String "'" "")).
      rewrite (quotedBy_quote "'" t eq_refl Ht), orb_true_r.
      cbn [slice1]. rewrite dropLast_last. reflexivity.
  - intros s Hcount Hexact. unfold parseValue.
    destruct (count_parts s Hcount) as (c & r & Heq & Hc & Hdig).
    rewrite (trim_digits s Hdig).
    assert (Hq : forall q, isQuote q = true -> quotedBy q s = false).
    { intros q Hq. rewrite Heq. unfold quotedBy, one.
      destruct (Ascii.eqb_spec q c) as [->|]; [|reflexivity].
      destruct (digit_classes c Hc) as (_ & _ & _ & Hnq & _). congruence. }
    rewrite (Hq "034"%char eq_refl), (Hq "'"%char eq_refl). cbn [orb].
    rewrite (toNumber_count s Hcount Hexact). reflexivity.
Qed.

(** The theorem at a quoted text and at a digit run. *)
Lemma parseValue_reads_literals_witness :
  parseValue (quote "true") reset = Ok (VStr "true")
  /\ parseValue "042" reset = Ok (VNum 42).
Proof.
  split.
  - exact (proj1 (proj1 (parseValue_reads_literals reset) "true" eq_refl)).
  - exact (proj1 (proj2 (parseValue_reads_literals reset)) "042"
             eq_refl eq_refl).
Defined.

(** ** A call without arguments *)

Lemma word_not_paren (c : ascii) :
  isWord c = true ->
  Ascii.eqb c "(" = false /\ Ascii.eqb c ":" = false /\ Ascii.eqb "#" c = false.
Proof.
  intros Hw. repeat split.
  - destruct (Ascii.eqb_spec c "(") as [->|]; [discriminate | reflexivity].
  - destruct (Ascii.eqb_spec c ":") as [->|]; [discriminate | reflexivity].
  - destruct (Ascii.eqb_spec "#" c) as [<-|]; [discriminate | reflexivity].
Qed.

Lemma keyword_needs_blank {A : Type} (K : string -> string -> option A)
  (kw : string) :
  all isWord kw = true ->
  forall w, all isWord w = true ->
    lit kw (many isSpace 1 K) (callLine w) = None.
Proof.
  unfold lit, callLine. induction kw as [|a kw IH]; intros Hkw w Hw.
  - cbn [stripPrefix]. destruct w as [|c w]; [reflexivity|].
    rewrite append_cons. cbn [many]. cbn [all] in Hw.
    apply andb_true_iff in Hw as [Hc _]. rewrite (word_not_space c Hc).
    reflexivity.
  - cbn [all] in Hkw. apply andb_true_iff in Hkw as [Ha Hkw].
    destruct w as [|c w].
    + rewrite append_nil. cbn [stripPrefix].
      destruct (word_not_paren a Ha) as (Hp & _). rewrite Hp. reflexivity.
    + rewrite append_cons. cbn [stripPrefix]. cbn [all] in Hw.
      apply andb_true_iff in Hw as [_ Hw].
      destruct (Ascii.eqb a c); [apply (IH Hkw w Hw) | reflexivity].
Qed.

Lemma keyword_colon_none (kw : string) :
  all isWord kw = true ->
  forall w, all isWord w = true -> stripPrefix (kw ++ ":") (callLine w) = None.
Proof.
  unfold callLine. induction kw as [|a kw IH]; intros Hkw w Hw.
  - rewrite append_nil. destruct w as [|c w]; [reflexivity|].
    rewrite append_cons. cbn [stripPrefix]. cbn [all] in Hw.
    apply andb_true_iff in Hw as [Hc _].
    destruct (word_not_paren c Hc) as (_ & Hcolon & _).
    rewrite Ascii.eqb_sym, Hcolon. reflexivity.
  - cbn [all] in Hkw. apply andb_true_iff in Hkw as [Ha Hkw].
    rewrite append_cons. destruct w as [|c w].
    + rewrite append_nil. cbn [stripPrefix].
      destruct (word_not_paren a Ha) as (Hp & _). rewrite Hp. reflexivity.
    + rewrite append_cons. cbn [stripPrefix]. cbn [all] in Hw.
      apply andb_true_iff in Hw as [_ Hw].
      destruct (Ascii.eqb a c); [apply (IH Hkw w Hw) | reflexivity].
Qed.

Lemma split_word (w : string) :
  all isWord w = true ->
  forall m r, callLine w = m ++ r -> all isWord m = true ->
    exists w2, r = callLine w2 /\ all isWord w2 = true.
Proof.
  unfold callLine. induction w as [|c w IH]; intros Hw m r Hsplit Hm.
  - rewrite append_nil in Hsplit. destruct m as [|a m].
    + rewrite append_nil in Hsplit. subst r. exists "". auto.
    + rewrite append_cons in Hsplit. injection Hsplit as <- _.
      discriminate Hm.
  - cbn [all] in Hw. apply andb_true_iff in Hw as [Hc Hw].
    rewrite append_cons in Hsplit. destruct m as [|a m].
    + rewrite append_nil in Hsplit. subst r. exists (String c w).
      split; [reflexivity|]. cbn [all]. rewrite Hc, Hw. reflexivity.
    + rewrite append_cons in Hsplit. injection Hsplit as <- Hsplit.
      cbn [all] in Hm. apply andb_true_iff in Hm as [_ Hm].
      apply (IH Hw m r Hsplit Hm).
Qed.

Lemma callLine_no_equals (w : string) :
  all isWord w = true -> startsWith "=" (trimStart (callLine w)) = false.
Proof.
  intros Hw. unfold callLine. destruct w as [|c w]; [reflexivity|].
  rewrite append_cons. cbn [all] in Hw. apply andb_true_iff in Hw as [Hc _].
  unfold trimStart. cbn [span]. rewrite (word_not_space c Hc). cbn [snd].
  unfold startsWith. cbn [stripPrefix].
  destruct (word_classes c Hc) as (_ & Heq & _). rewrite Heq. reflexivity.
Qed.

Lemma classify_callLine (f : string) :
  isWordRun f = true -> classify (callLine f) = SCall f "".
Proof.
  unfold isWordRun. intros H. apply andb_true_iff in H as [Hw Hne].
  destruct f as [|c r] eqn:Hf; [discriminate|]. rewrite <- Hf in *.
  assert (Hc : isWord c = true).
  { rewrite Hf in Hw. cbn [all] in Hw. apply andb_true_iff in Hw as [Hc _].
    exact Hc. }
  unfold classify.
  assert (Hskip : isEmpty (callLine f) || startsWith "#" (callLine f) = false).
  { rewrite Hf. unfold callLine. rewrite append_cons. cbn [isEmpty orb].
    unfold startsWith. cbn [stripPrefix].
    destruct (word_not_paren c Hc) as (_ & _ & Hh). rewrite Hh. reflexivity. }
  rewrite Hskip.
  assert (Hkw : forall A (K : string -> string -> option A) kw,
            all isWord kw = true ->
            lit kw (many isSpace 1 K) (callLine f) = None).
  { intros A K kw Hk. apply keyword_needs_blank; assumption. }
  unfold letMatch, setMatch, declMatch.
  rewrite (Hkw _ _ "let" eq_refl), (Hkw _ _ "set" eq_refl).
  assert (Hassign : assignMatch (callLine f) = None).
  { unfold assignMatch. apply many_none. intros m r' Hsplit Hm.
    apply blanks_then_equals_none.
    destruct (split_word f Hw m r' Hsplit Hm) as (w2 & -> & Hw2).
    apply callLine_no_equals, Hw2. }
  rewrite Hassign.
  unfold sayMatch, returnMatch, wordArgMatch.
  rewrite (Hkw _ _ "say" eq_refl).
  unfold ifMatch, whileMatch, headerMatch.
  rewrite (Hkw _ _ "if" eq_refl).
  assert (Helse : elseMatch (callLine f) = None).
  { unfold elseMatch, lit.
    pose proof (keyword_colon_none "else" eq_refl f Hw) as Hnone.
    change ("else" ++ ":") with "else:" in Hnone. rewrite Hnone.
    reflexivity. }
  rewrite Helse.
  unfold repeatMatch. rewrite (Hkw _ _ "repeat" eq_refl).
  rewrite (Hkw _ _ "while" eq_refl).
  unfold funcMatch. rewrite (Hkw _ _ "function" eq_refl).
  rewrite (Hkw _ _ "return" eq_refl).
  assert (Hcall : callMatch (callLine f) = Some (f, "")).
  { unfold callMatch, callLine.
    apply (many_greedy isWord f 1 _ "()" (f, ""));
      [exact Hw | rewrite Hf; cbn; lia | reflexivity | reflexivity]. }
  rewrite Hcall. reflexivity.
Qed.

Lemma callLine_last (f : string) : callLine f = (f ++ "(") ++ ")".
Proof.
  unfold callLine. induction f as [|c f IH]; [reflexivity|].
  rewrite !append_cons, IH. reflexivity.
Qed.

Lemma trim_callLine (f : string) :
  isWordRun f = true -> trim (callLine f) = callLine f.
Proof.
  unfold isWordRun. intros H. apply andb_true_iff in H as [Hw Hne].
  destruct f as [|c r]; [discriminate|].
  cbn [all] in Hw. apply andb_true_iff in Hw as [Hc Hw].
  unfold trim, trimStart. rewrite callLine_last, !append_cons.
  cbn [span]. rewrite (word_not_space c Hc). cbn [snd].
  rewrite <- !append_cons. apply trimEnd_last. reflexivity.
Qed.

(** X14.  A call [f()].  When [f] is no key of the function table,
    own or inherited, the call throws the [not found] error; when [f] is
    defined with at least one parameter it throws the [expects n arguments]
    error with the number of parameters of the definition.  The session is
    unchanged in both cases. *)
Theorem call_without_arguments_checks_name_and_arity (fuel : nat)
  (lines : list string) (i end_ env : nat) (output : list string)
  (rt : Runtime) (raw f : string) :
  (i < end_)%nat ->
  lines !! i = Some raw ->
  trim raw = callLine f ->
  isWordRun f = true ->
  (Obj.has f (functions rt) = false ->
   interpretLoop (S fuel) lines i end_ env output rt
   = Threw (Error ("Function " ++ quote f ++ " not found")) rt)
  /\ (forall def,
        functions rt !! f = Some def -> params def <> [] ->
        interpretLoop (S fuel) lines i end_ env output rt
        = Threw (Error ("Function " ++ quote f ++ " expects "
                        ++ ofZ (Z.of_nat (length (params def)))
                        ++ " arguments")) rt).
Proof.
  intros Hi Hraw Htrim Hf. apply Nat.ltb_lt in Hi. split.
  - intros Hno. cbn [interpretLoop].
    rewrite Hi, Hraw, Htrim, (classify_callLine f Hf). cbn [negb].
    unfold bind at 1. rewrite Hno. reflexivity.
  - intros def Hdef Hparams. cbn [interpretLoop].
    rewrite Hi, Hraw, Htrim, (classify_callLine f Hf). cbn [negb].
    unfold bind at 1.
    assert (Hhas : Obj.has f (functions rt) = true)
      by (unfold Obj.has; rewrite Hdef; reflexivity).
    rewrite Hhas. cbn [negb].
    change (isEmpty (trim "")) with true. cbv iota.
    unfold bind at 1. unfold ret at 1. rewrite Hdef.
    destruct (params def) as [|p ps]; [contradiction|]. reflexivity.
Qed.

(** The theorem at a call of an undefined name and at [add()]. *)
Lemma call_without_arguments_witness :
  interpretLoop 1 ["missing()"] 0 1 0 [] reset
  = Threw (Error ("Function " ++ quote "missing" ++ " not found")) reset
  /\ interpretLoop 1 ["add()"] 0 1 0 [] addSession
     = Threw (Error ("Function " ++ quote "add" ++ " expects 2 arguments"))
         addSession.
Proof.
  split.
  - exact (proj1 (call_without_arguments_checks_name_and_arity
                    0 ["missing()"] 0 1 0 [] reset "missing()" "missing"
                    ltac:(lia) eq_refl eq_refl eq_refl) eq_refl).
  - exact (proj2 (call_without_arguments_checks_name_and_arity
                    0 ["add()"] 0 1 0 [] addSession "add()" "add"
                    ltac:(lia) eq_refl eq_refl eq_refl)
             {| params := ["a"; "b"]; bodyStart := 1; bodyEnd := 2;
                bodyLines := ["    return a + b"] |}
             eq_refl ltac:(discriminate)).
Defined.

(** ** Indexing a string *)

Lemma span_then (p : ascii -> bool) (a rest : string) :
  all p a = true ->
  match rest with String c _ => p c = false | EmptyString => True end ->
  span p (a ++ rest) = (a, rest).
Proof.
  intros Ha Hrest. induction a as [|c a IH].
  - rewrite append_nil. destruct rest as [|c r]; [reflexivity|].
    cbn [span]. rewrite Hrest. reflexivity.
  - rewrite append_cons. cbn [all span] in *.
    apply andb_true_iff in Ha as [Hc Ha]. rewrite Hc, IH by exact Ha.
    reflexivity.
Qed.

Lemma varIndexMatch_indexedName (y ds : string) :
  isIdentifier y = true -> isCount ds = true ->
  varIndexMatch (indexedName y ds) = Some (y, [ds], "").
Proof.
  intros Hy Hds.
  destruct (identifier_parts y Hy) as (c & r & Hyeq & Hc & Hw).
  destruct (count_parts ds Hds) as (d & r' & Hdeq & Hd & Hdig).
  unfold varIndexMatch, one, indexedName.
  rewrite Hyeq at 1. rewrite append_cons, Hc.
  rewrite (span_then isWord y ("[" ++ ds ++ "]") Hw eq_refl).
  change ("[" ++ ds ++ "]") with (String "[" (ds ++ "]")).
  cbn [String.length indexGroups]. unfold indexGroup at 1, lit at 1.
  cbn [stripPrefix]. change (Ascii.eqb "[" "[") with true. cbv iota.
  rewrite (many_greedy isDigit ds 1 _ "]" (ds, "") Hdig);
    [| rewrite Hdeq; cbn; lia | reflexivity | reflexivity].
  rewrite length_append, Nat.add_1_r. reflexivity.
Qed.

Lemma trim_indexedName (y ds : string) :
  isIdentifier y = true -> trim (indexedName y ds) = indexedName y ds.
Proof.
  intros Hy. destruct (identifier_parts y Hy) as (c & r & -> & Hc & Hw).
  unfold trim, trimStart, indexedName. rewrite append_cons. cbn [span].
  rewrite (word_not_space c (identStart_word c Hc)). cbn [snd].
  rewrite <- append_cons.
  rewrite (trimEnd_append (String c r) ("[" ++ ds ++ "]")).
  - change ("[" ++ ds ++ "]") with (String "[" (ds ++ "]")).
    cbn [trimEnd]. rewrite (trimEnd_last ds "]" eq_refl).
    destruct ds; reflexivity.
  - change ("[" ++ ds ++ "]") with (String "[" (ds ++ "]")).
    cbn [trimEnd]. rewrite (trimEnd_last ds "]" eq_refl).
    destruct ds; reflexivity.
Qed.

Lemma get_length (s : string) :
  forall (k : nat) (c : ascii),
    String.get k s = Some c -> (k < String.length s)%nat.
Proof.
  induction s as [|d s IH]; intros k c H; [discriminate|].
  destruct k as [|k]; cbn [String.get String.length] in *; [lia|].
  apply IH in H. lia.
Qed.

(** X15.  Indexing a string.  For a name bound to a string, the
    expression [name[i]] evaluates to the one-character string at position
    i when there is one, and when i is at least the length it fails with
    [Variable or index error: name[i] - Index i out of range for string]. *)
Theorem index_into_a_string (h : list Environment.t) (env : nat)
  (y ds s : string) :
  isIdentifier y = true ->
  isCount ds = true ->
  exact (parseDigits ds) = true ->
  Environment.get h env y = Ok (VStr s) ->
  (forall ch,
     String.get (Z.to_nat (parseDigits ds)) s = Some ch ->
     plainChar ch = true ->
     evalExpression (indexedName y ds) h env = Ok (VStr (String ch "")))
  /\ ((Z.of_nat (String.length s) <= parseDigits ds)%Z ->
      evalExpression (indexedName y ds) h env
      = Throw (Error ("Variable or index error: " ++ indexedName y ds ++ " - "
                      ++ "Index " ++ ofZ (parseDigits ds)
                      ++ " out of range for string"))).
Proof.
  intros Hy Hds Hexact Hget.
  assert (Hcut : forall fuel,
            replaceRefs (S fuel) h env (indexedName y ds)
            = let* sub := resolve h env y [ds] in Ok (sub ++ "")).
  { intros fuel. cbn [replaceRefs].
    rewrite (varIndexMatch_indexedName y ds Hy Hds).
    destruct (identifier_parts y Hy) as (c & r & Hyeq & _).
    unfold indexedName at 1. rewrite Hyeq at 1. rewrite append_cons.
    cbv iota. destruct (resolve h env y [ds]); cbn [rbind]; try reflexivity.
    destruct fuel; reflexivity. }
  assert (Hlen : exists n, String.length (indexedName y ds) = S n).
  { destruct (identifier_parts y Hy) as (c & r & -> & _).
    unfold indexedName. rewrite append_cons. cbn [String.length]. eauto. }
  destruct Hlen as (n & Hlen).
  unfold evalExpression. rewrite (trim_indexedName y ds Hy), Hlen, Hcut.
  unfold resolve. rewrite Hget. cbn [rbind applyIndices].
  unfold applyIndex. rewrite Hexact. cbn [negb]. split.
  - intros ch Hch Hplain.
    assert (Hin : (Z.of_nat (String.length s) <=? parseDigits ds)%Z = false).
    { apply Z.leb_gt. apply get_length in Hch. lia. }
    rewrite Hin, Hch. cbn [rbind]. unfold jsonStringify. cbn [all].
    rewrite Hplain. cbn [andb rbind]. rewrite append_nil_r.
    change (dq ++ String ch "" ++ dq) with (quote (String ch "")).
    rewrite (evaluate_quote (String ch "")); [reflexivity|].
    cbn [all]. rewrite (plain_strChar ch Hplain). reflexivity.
  - intros Hout. apply Z.leb_le in Hout. rewrite Hout. reflexivity.
Qed.

(** The theorem at the string [s] of [scopedSession], inside and outside
    its three characters. *)
Lemma index_into_a_string_witness :
  evalExpression "s[1]" (heap scopedSession) 1 = Ok (VStr "b")
  /\ evalExpression "s[5]" (heap scopedSession) 1
     = Throw (Error "Variable or index error: s[5] - Index 5 out of range for string").
Proof.
  split.
  - exact (proj1 (index_into_a_string (heap scopedSession) 1 "s" "1" "abc"
                    eq_refl eq_refl eq_refl eq_refl) "b"%char eq_refl eq_refl).
  - exact (proj2 (index_into_a_string (heap scopedSession) 1 "s" "5" "abc"
                    eq_refl eq_refl eq_refl eq_refl)
             ltac:(vm_compute; discriminate)).
Defined.

(** ** A name as an expression, and repeat with a count *)

(** X16.  An expression that is just a name evaluates to the value
    the name resolves to from the scope, when that value is a number, a
    string of plain characters or a boolean. *)
Theorem variable_reads_back (h : list Environment.t) (env : nat)
  (y : string) (v : value) :
  isIdentifier y = true ->
  Environment.get h env y = Ok v ->
  printable v = true ->
  evalExpression y h env = Ok v.
Proof. apply evalExpression_name. Qed.


(** The theorem at the string [s] of [scopedSession]. *)
Lemma variable_reads_back_witness :
  evalExpression "s" (heap scopedSession) 1 = Ok (VStr "abc").
Proof.
  exact (variable_reads_back (heap scopedSession) 1 "s" (VStr "abc")
           eq_refl eq_refl eq_refl).
Defined.

(** a count that an array can hold is a number the model represents *)
Lemma parseDigitsFrom_nonneg (s : string) :
  forall acc, (0 <= acc)%Z -> (0 <= parseDigitsFrom acc s)%Z.
Proof.
  induction s as [|c s IH]; intros acc Hacc; [exact Hacc|].
  cbn [parseDigitsFrom]. apply IH. unfold digitVal. lia.
Qed.

Lemma count_below_array_length_exact (ds : string) :
  (parseDigits ds <= maxArrayLength)%Z -> exact (parseDigits ds) = true.
Proof.
  intros Hle. pose proof (parseDigitsFrom_nonneg ds 0 ltac:(lia)) as H0.
  fold (parseDigits ds) in H0. unfold exact, maxExact.
  apply Z.leb_le. rewrite Z.abs_eq by exact H0.
  unfold maxArrayLength in Hle.
  change (2 ^ 32 - 1)%Z with 4294967295%Z in Hle.
  change (2 ^ 53)%Z with 9007199254740992%Z. lia.
Qed.

(** X17.  [repeat N:] over one [say] of a quoted literal gives the
    text N times, for every digit run N that is a length an array can have
    (at most 2^32 - 1) and every text without line terminator, with any
    fuel from 3 on. *)
Theorem repeat_says_the_text_count_times (fuel : nat) (ds t : string) :
  isCount ds = true -> (parseDigits ds <= maxArrayLength)%Z ->
  all isDot t = true ->
  run (3 + fuel) [repeatLine ds; "    " ++ sayLine (quote t)]
  = Result (Output (replicate (Z.to_nat (parseDigits ds)) t)).
Proof.
  intros Hcount Hle Ht.
  apply (repeat_say_family fuel ds t Hcount
           (count_below_array_length_exact ds Hle) Ht).
Qed.

(** The theorem at [repeatProgram]. *)
Lemma repeat_says_the_text_witness :
  run 3 repeatProgram = Result (Output ["hi"; "hi"; "hi"]).
Proof.
  exact (repeat_says_the_text_count_times 0 "3" "hi" eq_refl
           ltac:(vm_compute; discriminate) eq_refl).
Defined.

(** ** repeat over a declaration *)

Lemma classify_letLine (y s : string) :
  isWordRun y = true -> numeral s = true ->
  classify (letLine y s) = SLet y s.
Proof.
  unfold isWordRun. intros Hy Hs. apply andb_true_iff in Hy as [Hw Hne].
  destruct y as [|c r] eqn:Hyeq; [discriminate|]. rewrite <- Hyeq in *.
  assert (Hc : isWord c = true).
  { rewrite Hyeq in Hw. cbn [all] in Hw. apply andb_true_iff in Hw as [Hc _].
    exact Hc. }
  destruct s as [|d q] eqn:Hseq; [discriminate|]. rewrite <- Hseq in *.
  assert (Hdig : all isDigit s = true).
  { rewrite Hseq in *. unfold numeral in Hs.
    apply andb_true_iff in Hs as [Hs _]. apply andb_true_iff in Hs as [Hs _].
    exact Hs. }
  assert (Hd : isDigit d = true).
  { rewrite Hseq in Hdig. cbn [all] in Hdig.
    apply andb_true_iff in Hdig as [Hd _]. exact Hd. }
  destruct (digit_classes d Hd) as (Hdsp & _).
  assert (Hdot : all isDot s = true).
  { apply (all_impl isDigit); [|exact Hdig].
    intros x Hx. apply (digit_classes x Hx). }
  unfold classify, letLine.
  change ("let " ++ y ++ " = " ++ s)
    with (String "l" (String "e" (String "t" (String " " (y ++ " = " ++ s))))).
  change (isEmpty (String "l" _) || startsWith "#" (String "l" _)) with false.
  cbv iota.
  assert (Hlet : letMatch (String "l" (String "e" (String "t"
                   (String " " (y ++ " = " ++ s))))) = Some (y, s)).
  { unfold letMatch, declMatch.
    change (String "l" (String "e" (String "t" (String " " (y ++ " = " ++ s)))))
      with ("let" ++ " " ++ (y ++ " = " ++ s)).
    unfold lit at 1. rewrite stripPrefix_append.
    apply (many_greedy isSpace " " 1 _ (y ++ " = " ++ s) (y, s));
      [reflexivity | cbn; lia
       | rewrite Hyeq, append_cons; exact (word_not_space c Hc) |].
    apply (many_greedy isWord y 1 _ (" = " ++ s) (y, s));
      [exact Hw | rewrite Hyeq; cbn; lia | reflexivity |].
    change (" = " ++ s) with (" " ++ String "=" (String " " s)).
    apply (many_greedy isSpace " " 0 _ (String "=" (String " " s)) (y, s));
      [reflexivity | cbn; lia | reflexivity |].
    unfold lit at 1. cbn [stripPrefix].
    change (Ascii.eqb "=" "=") with true. cbv iota.
    change (String " " s) with (" " ++ s).
    apply (many_greedy isSpace " " 0 _ s (y, s));
      [reflexivity | cbn; lia | rewrite Hseq; exact Hdsp |].
    rewrite <- (append_nil_r s) at 1.
    apply (many_greedy isDot s 1 _ "" (y, s));
      [exact Hdot | rewrite Hseq; cbn; lia | exact I | reflexivity]. }
  rewrite Hlet. reflexivity.
Qed.

Lemma trim_indented_letLine (y s : string) :
  isWordRun y = true -> numeral s = true ->
  trim ("    " ++ letLine y s) = letLine y s.
Proof.
  unfold isWordRun. intros Hy Hs. apply andb_true_iff in Hy as [Hw Hne].
  destruct s as [|d q] eqn:Hseq; [discriminate|]. rewrite <- Hseq in *.
  assert (Hdig : all isDigit s = true).
  { rewrite Hseq in *. unfold numeral in Hs.
    apply andb_true_iff in Hs as [Hs _]. apply andb_true_iff in Hs as [Hs _].
    exact Hs. }
  assert (Hsw : trimEnd s = s).
  { apply trimEnd_word. apply (all_impl isDigit); [|exact Hdig].
    intros x Hx. apply (digit_classes x Hx). }
  assert (H1 : trimEnd (" = " ++ s) = " = " ++ s).
  { rewrite trimEnd_append; rewrite Hsw; [reflexivity|].
    rewrite Hseq. reflexivity. }
  assert (H2 : trimEnd (y ++ " = " ++ s) = y ++ " = " ++ s).
  { rewrite trimEnd_append; rewrite H1; reflexivity. }
  assert (H3 : trimEnd (letLine y s) = letLine y s).
  { unfold letLine. rewrite trimEnd_append; rewrite H2; [reflexivity|].
    destruct y; [discriminate|]. reflexivity. }
  unfold trim. 
  replace (trimStart ("    " ++ letLine y s)) with (letLine y s);
    [exact H3|].
  reflexivity.
Qed.

(** one iteration: a scope created under the global one, and the
    declaration made in it *)
Lemma let_in_a_new_scope (fuel : nat) (ds y s : string) (rt : Runtime) :
  isWordRun y = true -> Obj.inherited y = false -> numeral s = true ->
  (do child <- newEnvironment (Some 0);
   interpretLoop (S (S fuel)) [repeatLine ds; "    " ++ letLine y s] 1 2
     child []) rt
  = Returned (Output [])
      (withHeap (heap rt ++ [Environment.declareVar y (VNum (parseDigits s))
                               (Environment.new (Some 0))])%list rt).
Proof.
  intros Hy Hin Hs. unfold bind at 1, newEnvironment.
  remember (S fuel) as fuel1 eqn:Hfuel1.
  cbn [interpretLoop].
  change (1 <? 2)%nat with true. cbn [negb].
  change ([repeatLine ds; "    " ++ letLine y s] !! 1%nat)
    with (Some ("    " ++ letLine y s)).
  cbv iota.
  rewrite (trim_indented_letLine y s Hy Hs), (classify_letLine y s Hy Hs).
  cbv iota. unfold bind at 1. unfold eval, lift.
  rewrite (evalExpression_numeral _ _ s Hs).
  unfold bind at 1. unfold isDeclared, onEnv. cbn [heap withHeap].
  rewrite list_lookup_middle by reflexivity.
  assert (Hfresh : Environment.isDeclared y (Environment.new (Some 0)) = false).
  { unfold Environment.isDeclared, Environment.new. cbn.
    rewrite !(has_false y ∅ (lookup_empty y) Hin). reflexivity. }
  rewrite Hfresh. cbv iota.
  unfold bind at 1. unfold declareVar, updateEnv. cbn [heap withHeap].
  rewrite list_lookup_middle by reflexivity.
  rewrite Hfuel1. cbn [interpretLoop].
  change (1 + 1 <? 2)%nat with false. cbn [negb]. unfold ret.
  rewrite insert_app_r_alt, Nat.sub_diag by lia. reflexivity.
Qed.

Lemma forLoop_new_scopes (body : M blockValue) (scope : Environment.t) :
  (forall rt,
     body rt = Returned (Output []) (withHeap (heap rt ++ [scope])%list rt)) ->
  forall count output rt,
    forLoop body count output rt
    = Returned output (withHeap (heap rt ++ replicate count scope)%list rt).
Proof.
  intros Hbody. induction count as [|count IH]; intros output rt.
  - cbn [forLoop replicate]. rewrite app_nil_r. destruct rt; reflexivity.
  - cbn [forLoop replicate]. unfold bind at 1. rewrite Hbody.
    cbn [pushAll]. unfold bind at 1. unfold ret at 1.
    rewrite app_nil_r, IH. cbn [heap withHeap].
    rewrite withHeap_twice, <- app_assoc. reflexivity.
Qed.

Lemma repeat_let_run (fuel : nat) (ds y s : string) :
  isCount ds = true -> exact (parseDigits ds) = true ->
  isWordRun y = true -> Obj.inherited y = false -> numeral s = true ->
  interpret (3 + fuel) [repeatLine ds; "    " ++ letLine y s]
  = Returned (Output [])
      (withHeap
         (Environment.new None
          :: replicate (Z.to_nat (parseDigits ds))
               (Environment.declareVar y (VNum (parseDigits s))
                  (Environment.new (Some 0))))
         reset).
Proof.
  intros Hcount Hexact Hy Hin Hs. unfold interpret, interpretBlock.
  change (3 + fuel)%nat with (S (S (S fuel))).
  remember (S (S fuel)) as fuel2 eqn:Hfuel2.
  cbn [interpretLoop length globalEnv reset].
  change (0 <? 2)%nat with true. cbn [negb].
  change ([repeatLine ds; "    " ++ letLine y s] !! 0%nat)
    with (Some (repeatLine ds)).
  cbv iota. rewrite trim_repeatLine, (classify_repeat_count ds Hcount), Hexact.
  cbn [negb].
  assert (Hscan : scanBlock [repeatLine ds; "    " ++ letLine y s] (0 + 1)
                  = 2%nat) by reflexivity.
  rewrite Hscan. unfold bind at 1.
  rewrite (forLoop_new_scopes _
             (Environment.declareVar y (VNum (parseDigits s))
                (Environment.new (Some 0)))).
  - rewrite Hfuel2. reflexivity.
  - intros rt. rewrite Hfuel2.
    apply (let_in_a_new_scope fuel ds y s rt Hy Hin Hs).
Qed.

(** X18.  Every iteration of [repeat] runs in a scope of its own.
    The run of [repeat N:] over [let y = s], for a word [y] that objects do
    not inherit and a numeral [s], returns with no output and leaves,
    besides the global scope, exactly N scopes, one per iteration: each
    hangs from the global scope and holds [y] with the value of [s], so
    the declaration ran N times and never met the [already declared]
    error, and the global scope itself does not know [y]. *)
Theorem repeat_declares_in_a_fresh_scope_each_time (fuel : nat)
  (ds y s : string) :
  isCount ds = true -> exact (parseDigits ds) = true ->
  isWordRun y = true -> Obj.inherited y = false -> numeral s = true ->
  exists rt',
    interpret (3 + fuel) [repeatLine ds; "    " ++ letLine y s]
    = Returned (Output []) rt'
    /\ heap rt'
       = Environment.new None
         :: replicate (Z.to_nat (parseDigits ds))
              (Environment.declareVar y (VNum (parseDigits s))
                 (Environment.new (Some 0)))
    /\ (forall a, (0 < a)%nat -> (a < length (heap rt'))%nat ->
          Environment.get (heap rt') a y = Ok (VNum (parseDigits s)))
    /\ Environment.get (heap rt') 0 y
       = Throw (Error ("Variable " ++ dq ++ y ++ dq ++ " not found"))
    /\ length (heap rt') = S (Z.to_nat (parseDigits ds)).
Proof.
  intros Hcount Hexact Hy Hin Hs. eexists.
  split; [apply (repeat_let_run fuel ds y s Hcount Hexact Hy Hin Hs)|].
  cbn [heap withHeap]. split; [reflexivity|].
  set (scope := Environment.declareVar y (VNum (parseDigits s))
                  (Environment.new (Some 0))).
  set (n := Z.to_nat (parseDigits ds)).
  split; [|split].
  - intros a Ha Hlt. cbn [length] in Hlt. rewrite length_replicate in Hlt.
    destruct a as [|a]; [lia|].
    apply (get_var _ _ scope).
    + cbn. apply lookup_replicate_2. lia.
    + unfold scope. cbn. apply write_same.
      apply not_inherited_not_proto, Hin.
  - unfold Environment.get. cbn [length Environment.getFrom].
    change ((Environment.new None :: replicate n scope) !! 0%nat)
      with (Some (Environment.new None)).
    cbv iota. cbn [Environment.vars Environment.consts Environment.parent
                   Environment.new].
    rewrite !(has_false y ∅ (lookup_empty y) Hin). reflexivity.
  - cbn [length]. rewrite length_replicate. reflexivity.
Qed.

(** The theorem at two iterations of [let x = 1]. *)
Lemma repeat_declares_witness :
  exists rt',
    interpret 3 ["repeat 2:"; "    let x = 1"] = Returned (Output []) rt'
    /\ length (heap rt') = 3%nat
    /\ Environment.get (heap rt') 1 "x" = Ok (VNum 1)
    /\ Environment.get (heap rt') 2 "x" = Ok (VNum 1)
    /\ Environment.get (heap rt') 0 "x"
       = Throw (Error ("Variable " ++ dq ++ "x" ++ dq ++ " not found")).
Proof.
  destruct (repeat_declares_in_a_fresh_scope_each_time 0 "2" "x" "1"
              eq_refl eq_refl eq_refl eq_refl eq_refl)
    as (rt' & Hrun & Hheap & Hget & Hroot & Hlen).
  assert (Hlen3 : length (heap rt') = 3%nat) by exact Hlen.
  exists rt'. split; [exact Hrun|]. split; [exact Hlen3|].
  split; [apply Hget; lia|].
  split; [apply Hget; lia | exact Hroot].
Defined.

(** ** Assignment to a variable of the scope *)

Lemma set_own (h : list Environment.t) (a : nat) (e : Environment.t)
  (name : string) (v : value) :
  h !! a = Some e ->
  Obj.has name (Environment.vars e) = true ->
  Environment.set h a name v = Ok (<[a := Environment.declareVar name v e]> h).
Proof.
  intros He Hown. unfold Environment.set.
  pose proof (lookup_lt_Some _ _ _ He) as Hlt.
  destruct (length h) as [|n]; [lia|].
  cbn [Environment.setFrom]. rewrite He, Hown. reflexivity.
Qed.

(** X19.  Assignment to a var of the current scope.  When the
    expression evaluates, the var reads back with the new value, no other
    scope and no function changes, and the block goes on at the next
    line. *)
Theorem assignment_updates_a_var_of_the_scope (fuel : nat)
  (lines : list string) (i end_ env : nat) (output : list string)
  (rt : Runtime) (raw varName expr : string) (old v : value)
  (e : Environment.t) :
  (i < end_)%nat ->
  lines !! i = Some raw ->
  classify (trim raw) = SAssign varName expr ->
  heap rt !! env = Some e ->
  Environment.vars e !! varName = Some old ->
  varName <> "__proto__" ->
  evalExpression expr (heap rt) env = Ok v ->
  exists rt',
    interpretLoop (S fuel) lines i end_ env output rt
    = interpretLoop fuel lines (i + 1) end_ env output rt'
    /\ Environment.get (heap rt') env varName = Ok v
    /\ length (heap rt') = length (heap rt)
    /\ (forall b, b <> env -> heap rt' !! b = heap rt !! b)
    /\ functions rt' = functions rt.
Proof.
  intros Hi Hraw Hclass He Hold Hne Heval. apply Nat.ltb_lt in Hi.
  assert (Hlt : (env < length (heap rt))%nat) by (eapply lookup_lt_Some, He).
  assert (Hown : Obj.has varName (Environment.vars e) = true)
    by (unfold Obj.has; rewrite Hold; reflexivity).
  exists (withHeap (<[env := Environment.declareVar varName v e]> (heap rt)) rt).
  split; [|split; [|split; [|split]]].
  - cbn [interpretLoop]. rewrite Hi, Hraw, Hclass. cbn [negb].
    unfold bind, eval, lift, isDeclared, onEnv, envSet.
    rewrite He. unfold Environment.isDeclared. rewrite Hown. cbn [orb negb].
    rewrite Heval, (set_own _ _ _ _ v He Hown). reflexivity.
  - cbn [heap withHeap]. eapply get_var.
    + apply list_lookup_insert_eq. exact Hlt.
    + cbn. apply write_same, Hne.
  - cbn [heap withHeap]. apply length_insert.
  - intros b Hb. cbn [heap withHeap]. apply list_lookup_insert_ne. congruence.
  - reflexivity.
Qed.

(** The theorem at [n = 7] in the global scope of [scopedSession]. *)
Lemma assignment_updates_witness :
  exists rt',
    interpretLoop 2 ["n = 7"] 0 1 0 [] scopedSession
    = interpretLoop 1 ["n = 7"] 1 1 0 [] rt'
    /\ Environment.get (heap rt') 0 "n" = Ok (VNum 7).
Proof.
  destruct (assignment_updates_a_var_of_the_scope 1 ["n = 7"] 0 1 0 []
              scopedSession "n = 7" "n" "7" (VNum 1) (VNum 7) scopedGlobal
              ltac:(lia) eq_refl eq_refl eq_refl eq_refl ltac:(discriminate)
              eq_refl)
    as (rt' & H1 & H2 & _).
  exists rt'. split; assumption.
Defined.
